(** * SmartCheck analysis engine (checkmysmartcontract)

    A shallow embedding of the heuristic Solidity linter: the line-scanning
    analysis service ([preprocessSolidityCode], [analyzeContractSimple],
    [analyzeFunction] and [analyzeContract]) and the rule catalogue of
    [services/smartcheck-rules.ts], followed by the properties of the
    specification that were checked against them. *)

From Stdlib Require Import List ZArith NArith Bool Lia String Ascii.
Import ListNotations.

Set Implicit Arguments.

(** ** JavaScript strings

    A JavaScript string is a sequence of UTF-16 code units.  Code units are
    kept as [N]; nothing below depends on the bound [< 65536]. *)

Module JS.

Definition code_unit := N.
Definition jsstring := list code_unit.

(** An ASCII literal of the source as a JavaScript string. *)
Definition js (s : string) : jsstring :=
  map N_of_ascii (list_ascii_of_string s).
Arguments js s%_string.

Definition LF : code_unit := 10%N.
Definition CR : code_unit := 13%N.
Definition TAB : code_unit := 9%N.

Open Scope N_scope.

(** ECMAScript [WhiteSpace] and [LineTerminator]: what [String.prototype.trim]
    strips and what the regular-expression class [\s] matches. *)
Definition isWhiteSpace (c : code_unit) : bool :=
  ((9 <=? c) && (c <=? 13))
  || (c =? 32) || (c =? 160) || (c =? 5760)
  || ((8192 <=? c) && (c <=? 8202))
  || (c =? 8232) || (c =? 8233) || (c =? 8239) || (c =? 8287)
  || (c =? 12288) || (c =? 65279).

(** The regular-expression class [\w], that is [[A-Za-z0-9_]]. *)
Definition isWordChar (c : code_unit) : bool :=
  ((97 <=? c) && (c <=? 122))
  || ((65 <=? c) && (c <=? 90))
  || ((48 <=? c) && (c <=? 57))
  || (c =? 95).

(** The class [[a-fA-F0-9]]. *)
Definition isHexDigit (c : code_unit) : bool :=
  ((97 <=? c) && (c <=? 102))
  || ((65 <=? c) && (c <=? 70))
  || ((48 <=? c) && (c <=? 57)).

Close Scope N_scope.

(** A character literal of the source as a code unit. *)
Definition ch (a : ascii) : code_unit := N_of_ascii a.
Arguments ch a%_char.

(** Strict equality [===] of two strings. *)
Fixpoint str_eqb (a b : jsstring) : bool :=
  match a, b with
  | [], [] => true
  | x :: a', y :: b' => N.eqb x y && str_eqb a' b'
  | _, _ => false
  end.

(** [dropPrefix pat s] is what follows [pat] at the start of [s]. *)
Fixpoint dropPrefix (pat s : jsstring) : option jsstring :=
  match pat with
  | [] => Some s
  | p :: pat' =>
      match s with
      | [] => None
      | c :: s' => if N.eqb p c then dropPrefix pat' s' else None
      end
  end.

(** [String.prototype.startsWith]. *)
Definition startsWith (pat s : jsstring) : bool :=
  match dropPrefix pat s with Some _ => true | None => false end.

(** A regular expression without anchors matches a string when it matches
    at some position; [matchAt] decides a match at the start of a suffix. *)
Fixpoint search (matchAt : jsstring -> bool) (s : jsstring) : bool :=
  matchAt s || match s with [] => false | _ :: t => search matchAt t end.

(** [String.prototype.includes]. *)
Definition includes (pat s : jsstring) : bool := search (startsWith pat) s.

Fixpoint dropWhile (p : code_unit -> bool) (s : jsstring) : jsstring :=
  match s with
  | [] => []
  | c :: t => if p c then dropWhile p t else s
  end.

Fixpoint takeWhile (p : code_unit -> bool) (s : jsstring) : jsstring :=
  match s with
  | [] => []
  | c :: t => if p c then c :: takeWhile p t else []
  end.

Definition trimStart (s : jsstring) : jsstring := dropWhile isWhiteSpace s.

Fixpoint trimEnd (s : jsstring) : jsstring :=
  match s with
  | [] => []
  | c :: t =>
      match trimEnd t with
      | [] => if isWhiteSpace c then [] else [c]
      | t' => c :: t'
      end
  end.

(** [String.prototype.trim]. *)
Definition trim (s : jsstring) : jsstring := trimEnd (trimStart s).

(** [s.replace(/\r\n/g, "\n")]. *)
Fixpoint replace_crlf (s : jsstring) : jsstring :=
  match s with
  | [] => []
  | c :: t =>
      match t with
      | d :: t' =>
          if N.eqb c CR && N.eqb d LF then LF :: replace_crlf t'
          else c :: replace_crlf t
      | [] => [c]
      end
  end.

(** [s.replace(/c/g, rep)] for a pattern of one code unit. *)
Fixpoint replaceAllChar (c : code_unit) (rep s : jsstring) : jsstring :=
  match s with
  | [] => []
  | x :: t =>
      if N.eqb x c then rep ++ replaceAllChar c rep t
      else x :: replaceAllChar c rep t
  end.

(** [s.replace(pat, rep)] with a string pattern: the first occurrence only. *)
Fixpoint replaceFirst (pat rep s : jsstring) : jsstring :=
  match dropPrefix pat s with
  | Some r => rep ++ r
  | None =>
      match s with
      | [] => []
      | c :: t => c :: replaceFirst pat rep t
      end
  end.

(** [s.split("\n")]: never empty, the empty string gives one empty line. *)
Fixpoint split_nl (s : jsstring) : list jsstring :=
  match s with
  | [] => [[]]
  | c :: t =>
      if N.eqb c LF then [] :: split_nl t
      else
        match split_nl t with
        | l :: ls => (c :: l) :: ls
        | [] => [[c]]
        end
  end.

(** [lines.join("\n")], used to write multi-line inputs. *)
Fixpoint join_nl (ls : list jsstring) : jsstring :=
  match ls with
  | [] => []
  | [l] => l
  | l :: ls' => l ++ LF :: join_nl ls'
  end.

Open Scope Z_scope.

(** [Array.prototype.findIndex]; the callback also receives the index. *)
Fixpoint findIndexFrom (A : Type) (p : A -> Z -> bool) (l : list A) (i : Z) : Z :=
  match l with
  | [] => -1
  | x :: t => if p x i then i else findIndexFrom p t (i + 1)
  end.

Definition findIndex (A : Type) (p : A -> Z -> bool) (l : list A) : Z :=
  findIndexFrom p l 0.

(** [Array.prototype.slice(start, end)]: a negative bound counts from the
    end of the array. *)
Definition slice (A : Type) (l : list A) (start end_ : Z) : list A :=
  let len := Z.of_nat (List.length l) in
  let k := if start <? 0 then Z.max (len + start) 0 else Z.min start len in
  let final := if end_ <? 0 then Z.max (len + end_) 0 else Z.min end_ len in
  firstn (Z.to_nat (final - k)) (skipn (Z.to_nat k) l).

Close Scope Z_scope.

End JS.

Import JS.

(** ** The preprocessor *)

Definition preprocessSolidityCode (code : jsstring) : jsstring :=
  trim
    (replaceAllChar TAB (js "    ")
       (replaceAllChar CR [LF]
          (replace_crlf code))).

(** ** Findings and the rule catalogue ([smartcheck-rules.ts]) *)

Inductive Severity := High | Medium | Low | Info | Error.

Definition Severity_eqb (a b : Severity) : bool :=
  match a, b with
  | High, High | Medium, Medium | Low, Low | Info, Info | Error, Error => true
  | _, _ => false
  end.

Record SmartCheckResult := {
  severity : Severity;
  message : string;
  line : Z;
  column : Z;
  rule : string;
  description : string;
  recommendation : string
}.

Record Rule := {
  ruleId : string;
  ruleSeverity : Severity;
  ruleDescription : string;
  ruleRecommendation : string;
  check : jsstring -> Z -> option SmartCheckResult
}.

Definition reentrancyRule : Rule := {|
  ruleId := "reentrancy";
  ruleSeverity := High;
  ruleDescription :=
    "Potential reentrancy vulnerability detected. State changes are made after external calls.";
  ruleRecommendation :=
    "Consider using the Checks-Effects-Interactions pattern or a reentrancy guard.";
  check := fun code ln =>
    let hasExternalCall :=
      includes (js ".call{") code
      || includes (js ".send(") code
      || includes (js ".transfer(") code in
    let hasStateChange :=
      includes (js "balances[") code
      || includes (js "+=") code
      || includes (js "-=") code in
    if hasExternalCall && hasStateChange then
      Some {|
        severity := High;
        message := "Potential reentrancy vulnerability detected";
        line := ln;
        column := 1;
        rule := "reentrancy";
        description :=
          "The contract may be vulnerable to reentrancy attacks. State changes are made after external calls.";
        recommendation :=
          "Consider using the Checks-Effects-Interactions pattern or a reentrancy guard."
      |}
    else None
|}.

Definition txOriginRule : Rule := {|
  ruleId := "tx-origin";
  ruleSeverity := High;
  ruleDescription :=
    "Use of tx.origin for authentication is vulnerable to phishing attacks.";
  ruleRecommendation := "Use msg.sender instead of tx.origin for authentication.";
  check := fun code ln =>
    if includes (js "tx.origin") code then
      Some {|
        severity := High;
        message := "Use of tx.origin detected";
        line := ln;
        column := 1;
        rule := "tx-origin";
        description :=
          "Use of tx.origin for authentication is vulnerable to phishing attacks.";
        recommendation := "Use msg.sender instead of tx.origin for authentication."
      |}
    else None
|}.

Definition timestampRule : Rule := {|
  ruleId := "timestamp-dependence";
  ruleSeverity := Medium;
  ruleDescription := "Contract uses block.timestamp for critical operations.";
  ruleRecommendation :=
    "Avoid using block.timestamp for critical operations as it can be manipulated by miners.";
  check := fun code ln =>
    if includes (js "block.timestamp") code then
      Some {|
        severity := Medium;
        message := "Timestamp dependence detected";
        line := ln;
        column := 1;
        rule := "timestamp-dependence";
        description := "Contract uses block.timestamp for critical operations.";
        recommendation :=
          "Avoid using block.timestamp for critical operations as it can be manipulated by miners."
      |}
    else None
|}.

(** [/0x[a-fA-F0-9]{40}/] at the start of a suffix. *)
Definition addressAt (s : jsstring) : bool :=
  match dropPrefix (js "0x") s with
  | Some r =>
      let digits := firstn 40 r in
      Nat.eqb (List.length digits) 40 && forallb isHexDigit digits
  | None => false
  end.

Definition hardcodedAddressRule : Rule := {|
  ruleId := "hardcoded-address";
  ruleSeverity := Medium;
  ruleDescription := "Contract contains hardcoded Ethereum addresses.";
  ruleRecommendation :=
    "Use configuration variables or constructor parameters instead of hardcoded addresses.";
  check := fun code ln =>
    if search addressAt code then
      Some {|
        severity := Medium;
        message := "Hardcoded address detected";
        line := ln;
        column := 1;
        rule := "hardcoded-address";
        description := "Contract contains hardcoded Ethereum addresses.";
        recommendation :=
          "Use configuration variables or constructor parameters instead of hardcoded addresses."
      |}
    else None
|}.

Definition uncheckedSendRule : Rule := {|
  ruleId := "unchecked-send";
  ruleSeverity := Medium;
  ruleDescription := "Unchecked return value from send/transfer call.";
  ruleRecommendation := "Always check the return value of send/transfer calls.";
  check := fun code ln =>
    if includes (js ".send(") code || includes (js ".transfer(") code then
      let hasCheck :=
        includes (js "require(") code
        || includes (js "if (") code
        || includes (js "assert(") code in
      if negb hasCheck then
        Some {|
          severity := Medium;
          message := "Unchecked send/transfer detected";
          line := ln;
          column := 1;
          rule := "unchecked-send";
          description := "Unchecked return value from send/transfer call.";
          recommendation := "Always check the return value of send/transfer calls."
        |}
      else None
    else None
|}.

Definition delegatecallRule : Rule := {|
  ruleId := "delegatecall-usage";
  ruleSeverity := High;
  ruleDescription := "Use of delegatecall detected.";
  ruleRecommendation :=
    "Be extremely careful with delegatecall as it can lead to unexpected behavior and vulnerabilities.";
  check := fun code ln =>
    if includes (js ".delegatecall(") code then
      Some {|
        severity := High;
        message := "Use of delegatecall detected";
        line := ln;
        column := 1;
        rule := "delegatecall-usage";
        description := "Use of delegatecall detected.";
        recommendation :=
          "Be extremely careful with delegatecall as it can lead to unexpected behavior and vulnerabilities."
      |}
    else None
|}.

Definition selfdestructRule : Rule := {|
  ruleId := "selfdestruct-usage";
  ruleSeverity := High;
  ruleDescription := "Use of selfdestruct detected.";
  ruleRecommendation :=
    "Be careful with selfdestruct as it can lead to loss of funds.";
  check := fun code ln =>
    if includes (js "selfdestruct(") code then
      Some {|
        severity := High;
        message := "Use of selfdestruct detected";
        line := ln;
        column := 1;
        rule := "selfdestruct-usage";
        description := "Use of selfdestruct detected.";
        recommendation :=
          "Be careful with selfdestruct as it can lead to loss of funds."
      |}
    else None
|}.

Definition suicideRule : Rule := {|
  ruleId := "suicide-usage";
  ruleSeverity := High;
  ruleDescription := "Use of deprecated suicide function detected.";
  ruleRecommendation := "Use selfdestruct instead of suicide as it is deprecated.";
  check := fun code ln =>
    if includes (js "suicide(") code then
      Some {|
        severity := High;
        message := "Use of deprecated suicide function detected";
        line := ln;
        column := 1;
        rule := "suicide-usage";
        description := "Use of deprecated suicide function detected.";
        recommendation :=
          "Use selfdestruct instead of suicide as it is deprecated."
      |}
    else None
|}.

Definition throwRule : Rule := {|
  ruleId := "throw-usage";
  ruleSeverity := Medium;
  ruleDescription := "Use of deprecated throw statement detected.";
  ruleRecommendation := "Use require, assert, or revert instead of throw.";
  check := fun code ln =>
    if includes (js "throw;") code then
      Some {|
        severity := Medium;
        message := "Use of deprecated throw statement detected";
        line := ln;
        column := 1;
        rule := "throw-usage";
        description := "Use of deprecated throw statement detected.";
        recommendation := "Use require, assert, or revert instead of throw."
      |}
    else None
|}.

Definition gasLimitRule : Rule := {|
  ruleId := "gas-limit";
  ruleSeverity := Medium;
  ruleDescription := "Potential gas limit issue detected.";
  ruleRecommendation :=
    "Consider using loops with a fixed number of iterations or implement pagination.";
  check := fun code ln =>
    if includes (js "for (") code || includes (js "while (") code then
      let hasLimit :=
        includes (js "require(") code
        || includes (js "if (") code
        || includes (js "assert(") code in
      if negb hasLimit then
        Some {|
          severity := Medium;
          message := "Potential gas limit issue detected";
          line := ln;
          column := 1;
          rule := "gas-limit";
          description := "Potential gas limit issue detected.";
          recommendation :=
            "Consider using loops with a fixed number of iterations or implement pagination."
        |}
      else None
    else None
|}.

Definition rules : list Rule :=
  [ reentrancyRule; txOriginRule; timestampRule; hardcodedAddressRule;
    uncheckedSendRule; delegatecallRule; selfdestructRule; suicideRule;
    throwRule; gasLimitRule ].

(** ** The function scanner of the analysis service *)

Inductive Visibility := Public | Private | Internal | External.

(** The record the scanner keeps for the function being read
    ([currentFunction]); [visibility] is [None] for [undefined]. *)
Record FunctionRecord := {
  code : jsstring;
  hasExternalCall : bool;
  hasStateChange : bool;
  isPayable : bool;
  visibility : option Visibility;
  hasModifier : bool;
  modifiers : list jsstring
}.

(** The first of the alternatives [alts] that is a prefix of [s], with what
    follows it. *)
Fixpoint firstAlt (alts : list jsstring) (s : jsstring) : option jsstring :=
  match alts with
  | [] => None
  | a :: alts' =>
      match dropPrefix a s with
      | Some r => Some r
      | None => firstAlt alts' s
      end
  end.

(** [/\.(call|send|transfer)\s*[({]/] at the start of a suffix. *)
Definition externalCallAt (s : jsstring) : bool :=
  match dropPrefix (js ".") s with
  | Some r =>
      match firstAlt [js "call"; js "send"; js "transfer"] r with
      | Some r' =>
          match dropWhile isWhiteSpace r' with
          | c :: _ => N.eqb c (ch "(") || N.eqb c (ch "{")
          | [] => false
          end
      | None => false
      end
  | None => false
  end.

(** [line.match(/\.(call|send|transfer)\s*[({]/)] is not null. *)
Definition externalCallPattern (ln : jsstring) : bool :=
  search externalCallAt ln.

(** [/([+=]|[-=]|= [^=])/] at the start of a suffix: two character classes
    and the three-character sequence, tried in this order. *)
Definition stateChangeAt (s : jsstring) : bool :=
  match s with
  | [] => false
  | c :: t =>
      (N.eqb c (ch "+") || N.eqb c (ch "="))
      || (N.eqb c (ch "-") || N.eqb c (ch "="))
      || (N.eqb c (ch "=")
          && match t with
             | d :: e :: _ => N.eqb d (ch " ") && negb (N.eqb e (ch "="))
             | _ => false
             end)
  end.

(** [line.match(/([+=]|[-=]|= [^=])/)] is not null. *)
Definition stateChangePattern (ln : jsstring) : bool :=
  search stateChangeAt ln.

(** [/kw\s+(\w+)/] at the start of a suffix: the matched text and the group.
    [\s+] and [\w+] are greedy and the two classes are disjoint, so the
    longest runs are the only way to match. *)
Definition keywordWordAt (kw s : jsstring) : option (jsstring * jsstring) :=
  match dropPrefix kw s with
  | Some r =>
      let ws := takeWhile isWhiteSpace r in
      let w := takeWhile isWordChar (dropWhile isWhiteSpace r) in
      match ws, w with
      | _ :: _, _ :: _ => Some (kw ++ ws ++ w, w)
      | _, _ => None
      end
  | None => None
  end.

(** [s.match(/modifier\s+(\w+)/g)]: every match, left to right, the search
    resuming where the last match ended ([skip] code units further). *)
Fixpoint matchAllModifier (s : jsstring) (skip : nat) : list jsstring :=
  match s with
  | [] => []
  | _ :: t =>
      match skip with
      | S k => matchAllModifier t k
      | O =>
          match keywordWordAt (js "modifier") s with
          | Some (m, _) => m :: matchAllModifier t (List.length m - 1)
          | None => matchAllModifier t 0
          end
      end
  end.

(** [s.match(/function\s+(\w+)/)?.[1] || ""]. *)
Fixpoint functionNameOf (s : jsstring) : jsstring :=
  match keywordWordAt (js "function") s with
  | Some (_, w) => w
  | None =>
      match s with
      | [] => []
      | _ :: t => functionNameOf t
      end
  end.

Definition push (results : list SmartCheckResult) (r : SmartCheckResult)
  : list SmartCheckResult := results ++ [r].

Open Scope Z_scope.

(** The object literals that [analyzeFunction] pushes, each at line
    [startLine + 1]. *)
Definition visibilityFinding (startLine : Z) : SmartCheckResult := {|
  severity := Medium;
  message := "Public function without state mutability specifier";
  line := startLine + 1;
  column := 1;
  rule := "visibility";
  description :=
    "Public functions should explicitly declare their state mutability.";
  recommendation :=
    "Add stateMutability specifier (pure, view, payable, or nonpayable) to the function."
|}.

Definition payableValidationFinding (startLine : Z) : SmartCheckResult := {|
  severity := Medium;
  message := "Payable function without value validation";
  line := startLine + 1;
  column := 1;
  rule := "payable-validation";
  description := "Payable functions should validate the received value.";
  recommendation :=
    "Add require(msg.value > 0) or similar validation at the start of the function."
|}.

Definition reentrancyFinding (startLine : Z) : SmartCheckResult := {|
  severity := High;
  message := "Potential reentrancy vulnerability detected";
  line := startLine + 1;
  column := 1;
  rule := "reentrancy";
  description :=
    "State changes are made after external calls, which could lead to reentrancy attacks.";
  recommendation :=
    "Use the Checks-Effects-Interactions pattern or a reentrancy guard."
|}.

Definition unprotectedInitFinding (startLine : Z) : SmartCheckResult := {|
  severity := High;
  message := "Unprotected initialization function";
  line := startLine + 1;
  column := 1;
  rule := "unprotected-init";
  description :=
    "Initialization function should be protected from multiple calls.";
  recommendation := "Add an initialization guard using a boolean flag."
|}.

Definition unprotectedUpgradeFinding (startLine : Z) : SmartCheckResult := {|
  severity := High;
  message := "Unprotected upgrade function";
  line := startLine + 1;
  column := 1;
  rule := "unprotected-upgrade";
  description := "Upgrade functions should be protected with access control.";
  recommendation := "Add onlyOwner modifier or similar access control."
|}.

Definition unprotectedWithdrawFinding (startLine : Z) : SmartCheckResult := {|
  severity := High;
  message := "Unprotected withdraw function";
  line := startLine + 1;
  column := 1;
  rule := "unprotected-withdraw";
  description := "Withdraw functions should be protected with access control.";
  recommendation := "Add onlyOwner modifier or similar access control."
|}.

Definition unprotectedSelfdestructFinding (startLine : Z) : SmartCheckResult := {|
  severity := High;
  message := "Unprotected selfdestruct function";
  line := startLine + 1;
  column := 1;
  rule := "unprotected-selfdestruct";
  description :=
    "Selfdestruct functions should be protected with access control.";
  recommendation := "Add onlyOwner modifier or similar access control."
|}.

Definition analyzeFunction (func : FunctionRecord) (startLine : Z)
    (results : list SmartCheckResult) : list SmartCheckResult :=
  let lines := split_nl (code func) in
  let functionName := functionNameOf (code func) in
  (* Check visibility *)
  let results :=
    if match visibility func with Some Public => true | _ => false end
       && negb (includes (js "pure") (code func))
       && negb (includes (js "view") (code func))
    then push results (visibilityFinding startLine)
    else results in
  (* Check payable functions *)
  let results :=
    if isPayable func then
      let hasValueValidation :=
        existsb
          (fun ln =>
             startsWith (js "require(msg.value") (trim ln)
             || startsWith (js "if (msg.value") (trim ln))
          lines in
      if negb hasValueValidation
      then push results (payableValidationFinding startLine)
      else results
    else results in
  (* Check for reentrancy *)
  let results :=
    if hasExternalCall func && hasStateChange func then
      let stateChangeIndex :=
        findIndex (fun ln _ => stateChangePattern ln) lines in
      let externalCallIndex :=
        findIndex (fun ln _ => externalCallPattern ln) lines in
      if stateChangeIndex >? externalCallIndex
      then push results (reentrancyFinding startLine)
      else results
    else results in
  (* Check for unprotected functions *)
  let isProtected :=
    hasModifier func && existsb (str_eqb (js "onlyOwner")) (modifiers func) in
  if negb isProtected then
    (* Check for initialize function *)
    let results :=
      if str_eqb functionName (js "initialize")
      then push results (unprotectedInitFinding startLine)
      else results in
    (* Check for upgrade function *)
    let results :=
      if str_eqb functionName (js "upgrade")
      then push results (unprotectedUpgradeFinding startLine)
      else results in
    (* Check for withdraw function *)
    let results :=
      if str_eqb functionName (js "withdraw")
      then push results (unprotectedWithdrawFinding startLine)
      else results in
    (* Check for selfdestruct function *)
    if existsb (fun ln => includes (js "selfdestruct") ln) lines
    then push results (unprotectedSelfdestructFinding startLine)
    else results
  else results.

Definition stateVisibilityFinding (contractLine index : Z) : SmartCheckResult := {|
  severity := Low;
  message := "Public state variable without getter";
  line := contractLine + index + 2;
  column := 1;
  rule := "state-visibility";
  description :=
    "Public state variables automatically create getters, which may expose sensitive data.";
  recommendation :=
    "Consider using private visibility with explicit getter functions for better control."
|}.

(** The callback of [stateVariables.forEach]: one preamble line. *)
Definition checkStateVariable (contractLine : Z)
    (results : list SmartCheckResult) (ln : jsstring) (index : Z)
  : list SmartCheckResult :=
  if includes (js "public") ln
     && negb (includes (js "constant") ln)
     && negb (includes (js "immutable") ln)
  then push results (stateVisibilityFinding contractLine index)
  else results.

(** [arr.forEach((x, index) => ...)] over a callback that updates a state. *)
Fixpoint forEachFrom (A S : Type) (f : S -> A -> Z -> S) (l : list A)
    (index : Z) (st : S) : S :=
  match l with
  | [] => st
  | x :: t => forEachFrom f t (index + 1) (f st x index)
  end.

Definition forEach (A S : Type) (f : S -> A -> Z -> S) (l : list A) (st : S) : S :=
  forEachFrom f l 0 st.

(** The variables the second pass of [analyzeContractSimple] updates. *)
Record ScanState := {
  currentFunction : option FunctionRecord;
  functionStartLine : Z;
  results : list SmartCheckResult
}.

(** What a signature line opens: the fresh [currentFunction]. *)
Definition openFunction (ln : jsstring) : FunctionRecord :=
  let visibility :=
    if includes (js "public") ln then Some Public
    else if includes (js "private") ln then Some Private
    else if includes (js "internal") ln then Some Internal
    else if includes (js "external") ln then Some External
    else None in
  let modifiers :=
    map (fun m => replaceFirst (js "modifier ") [] m)
        (matchAllModifier ln 0) in
  {| code := ln;
     hasExternalCall := false;
     hasStateChange := false;
     isPayable := includes (js "payable") ln;
     visibility := visibility;
     hasModifier := (0 <? Z.of_nat (List.length modifiers));
     modifiers := modifiers |}.

(** What any other line does to the open [currentFunction]. *)
Definition appendLine (f : FunctionRecord) (ln : jsstring) : FunctionRecord :=
  {| code := code f ++ LF :: ln;
     hasExternalCall :=
       if externalCallPattern ln then true else hasExternalCall f;
     hasStateChange :=
       if stateChangePattern ln then true else hasStateChange f;
     isPayable := isPayable f;
     visibility := visibility f;
     hasModifier := hasModifier f;
     modifiers := modifiers f |}.

(** One iteration of the loop [for (let i = 0; i < lines.length; i++)]. *)
Definition scanLine (st : ScanState) (ln : jsstring) (i : Z) : ScanState :=
  if startsWith (js "function") ln then
    {| currentFunction := Some (openFunction ln);
       functionStartLine := i;
       results :=
         match currentFunction st with
         | Some f => analyzeFunction f (functionStartLine st) (results st)
         | None => results st
         end |}
  else
    match currentFunction st with
    | Some f =>
        {| currentFunction := Some (appendLine f ln);
           functionStartLine := functionStartLine st;
           results := results st |}
    | None => st
    end.

(** The test of the merge: [r.rule === result.rule &&
    Math.abs(r.line - result.line) <= 2]. *)
Definition similar (result r : SmartCheckResult) : bool :=
  String.eqb (rule r) (rule result) && (Z.abs (line r - line result) <=? 2).

(** Only add if we don't already have a similar result. *)
Definition pushUnlessSimilar (results : list SmartCheckResult)
    (result : SmartCheckResult) : list SmartCheckResult :=
  if negb (existsb (similar result) results) then push results result
  else results.

(** The callback of [rules.forEach] for the line [ln] at [index]. *)
Definition applyRule (ln : jsstring) (index : Z)
    (results : list SmartCheckResult) (r : Rule) : list SmartCheckResult :=
  match check r ln (index + 1) with
  | Some result => pushUnlessSimilar results result
  | None => results
  end.

(** [lines.forEach((line, index) => rules.forEach(...))]. *)
Definition applyRules (lines : list jsstring)
    (results : list SmartCheckResult) : list SmartCheckResult :=
  forEach (fun results ln index => fold_left (applyRule ln index) rules results)
          lines results.

Definition syntaxError : SmartCheckResult := {|
  severity := Error;
  message := "No contract declaration found";
  line := 1;
  column := 1;
  rule := "syntax";
  description := "The code must contain a contract declaration.";
  recommendation := "Add a contract declaration using 'contract ContractName {'"
|}.

(** The findings after the preamble pass and the function pass, before the
    rule catalogue is applied. *)
Definition functionPass (lines : list jsstring) (contractLine : Z)
  : list SmartCheckResult :=
  (* Find state variables *)
  let firstFunctionLine :=
    findIndex
      (fun ln index => (index >? contractLine) && startsWith (js "function") ln)
      lines in
  (* Check state variables *)
  let stateVariables := slice lines (contractLine + 1) firstFunctionLine in
  let preamble := forEach (checkStateVariable contractLine) stateVariables [] in
  (* Second pass: Analyze functions and vulnerabilities *)
  let st :=
    forEach scanLine lines
      {| currentFunction := None; functionStartLine := 0; results := preamble |} in
  (* Analyze last function *)
  match currentFunction st with
  | Some f => analyzeFunction f (functionStartLine st) (results st)
  | None => results st
  end.

Definition analyzeContractSimple (code : jsstring) : list SmartCheckResult :=
  let lines := map trim (split_nl code) in
  (* Find contract declaration *)
  let contractLine :=
    findIndex (fun ln _ => startsWith (js "contract") ln) lines in
  if contractLine =? -1 then [syntaxError]
  else
    (* Apply SmartCheck rules with improved pattern matching *)
    applyRules lines (functionPass lines contractLine).

(** ** The entry point *)

(** What [analyzeContract] can be called with: a string, or a value of
    another type ([null], [undefined], a number...). *)
Inductive JsValue :=
| JsString (s : jsstring)
| JsNotString.

(** What the persistence collaborator does once the findings are known:
    [supabase.auth.getUser()] rejects, resolves without a user, or resolves
    with one, and then [insert] resolves or rejects. *)
Inductive Supabase :=
| AuthRejects
| NoUser
| UserInsertResolves
| UserInsertRejects.

Definition persistenceReturns (sb : Supabase) : bool :=
  match sb with
  | NoUser | UserInsertResolves => true
  | AuthRejects | UserInsertRejects => false
  end.

Definition inputValidationError : SmartCheckResult := {|
  severity := Error;
  message := "Invalid source code provided";
  line := 1;
  column := 1;
  rule := "input-validation";
  description := "The provided source code is empty or invalid.";
  recommendation := "Please provide valid Solidity source code."
|}.

Definition analysisComplete : SmartCheckResult := {|
  severity := Info;
  message := "No issues found";
  line := 1;
  column := 1;
  rule := "analysis-complete";
  description :=
    "The contract analysis completed successfully with no issues detected.";
  recommendation :=
    "Continue monitoring for potential vulnerabilities as the contract evolves."
|}.

Definition internalError : SmartCheckResult := {|
  severity := Error;
  message := "Analysis error";
  line := 1;
  column := 1;
  rule := "internal-error";
  description := "An error occurred while analyzing the contract.";
  recommendation :=
    "Please try again or contact support if the issue persists."
|}.

(** Only add "No issues found" if there are no actual issues. *)
Definition finalize (results : list SmartCheckResult) : list SmartCheckResult :=
  if Nat.eqb (List.length results) 0
     || forallb (fun r => Severity_eqb (severity r) Info) results
  then [analysisComplete]
  else results.

Definition analyzeContract (sb : Supabase) (sourceCode : JsValue)
  : list SmartCheckResult :=
  match sourceCode with
  | JsNotString => [inputValidationError]
  | JsString [] => [inputValidationError]
  | JsString s =>
      let processedCode := preprocessSolidityCode s in
      let results := finalize (analyzeContractSimple processedCode) in
      (* Store analysis results if user is authenticated *)
      if persistenceReturns sb then results
      else [internalError]
  end.

Close Scope Z_scope.

Unset Implicit Arguments.

(** ** The vocabulary of the statements *)

(** [Contains pat s]: [pat] occurs in [s] as a substring. *)
Definition Contains (pat s : jsstring) : Prop :=
  exists pre post, s = pre ++ pat ++ post.

(** The replacements of the preprocessor as the specification words them,
    in one pass over the text: a carriage return followed by a line feed
    becomes one line feed, any other carriage return becomes a line feed,
    and a tab becomes four spaces. *)
Fixpoint normalizeLineEndingsAndTabs (s : jsstring) : jsstring :=
  match s with
  | [] => []
  | c :: t =>
      if N.eqb c CR then
        match t with
        | d :: t' =>
            if N.eqb d LF then LF :: normalizeLineEndingsAndTabs t'
            else LF :: normalizeLineEndingsAndTabs t
        | [] => [LF]
        end
      else if N.eqb c TAB then js "    " ++ normalizeLineEndingsAndTabs t
      else c :: normalizeLineEndingsAndTabs t
  end.

(** Some line of [code], once trimmed, starts with the contract keyword. *)
Definition hasContractLine (code : jsstring) : bool :=
  existsb (startsWith (js "contract")) (map trim (split_nl code)).

(** The index of the first line of the record's text that matches the
    state-change expression, and of the first that matches the
    external-call expression ([-1] when there is none). *)
Definition stateChangeIndex (func : FunctionRecord) : Z :=
  findIndex (fun ln _ => stateChangePattern ln) (split_nl (code func)).

Definition externalCallIndex (func : FunctionRecord) : Z :=
  findIndex (fun ln _ => externalCallPattern ln) (split_nl (code func)).

(** The findings of [results] reported under the rule [id]. *)
Definition withRule (id : string) (results : list SmartCheckResult)
  : list SmartCheckResult :=
  filter (fun r => String.eqb (rule r) id) results.

(** [when b r]: the finding [r] if the check [b] fires. *)
Definition when (b : bool) (r : SmartCheckResult) : list SmartCheckResult :=
  if b then [r] else [].

(** What [analyzeFunction] appends for a record, check by check. *)
Definition emitted (func : FunctionRecord) (startLine : Z)
  : list SmartCheckResult :=
  let lines := split_nl (code func) in
  let functionName := functionNameOf (code func) in
  let unprotected :=
    negb (hasModifier func
          && existsb (str_eqb (js "onlyOwner")) (modifiers func)) in
  when (match visibility func with Some Public => true | _ => false end
        && negb (includes (js "pure") (code func))
        && negb (includes (js "view") (code func)))
       (visibilityFinding startLine)
  ++ when (isPayable func
           && negb (existsb
                      (fun ln =>
                         startsWith (js "require(msg.value") (trim ln)
                         || startsWith (js "if (msg.value") (trim ln))
                      lines))
          (payableValidationFinding startLine)
  ++ when (hasExternalCall func && hasStateChange func
           && (stateChangeIndex func >? externalCallIndex func)%Z)
          (reentrancyFinding startLine)
  ++ when (unprotected && str_eqb functionName (js "initialize"))
          (unprotectedInitFinding startLine)
  ++ when (unprotected && str_eqb functionName (js "upgrade"))
          (unprotectedUpgradeFinding startLine)
  ++ when (unprotected && str_eqb functionName (js "withdraw"))
          (unprotectedWithdrawFinding startLine)
  ++ when (unprotected
           && existsb (fun ln => includes (js "selfdestruct") ln) lines)
          (unprotectedSelfdestructFinding startLine).

(** The two lines of the specification's example. *)
Definition callLine : jsstring :=
  js "msg.sender.call{value: amount}(" ++ [34%N; 34%N] ++ js ");".

Definition balanceLine : jsstring := js "balances[msg.sender] -= amount;".

(** A contract whose function makes the external call first, and the same
    contract with the two lines exchanged. *)
Definition callThenUpdate : jsstring :=
  join_nl [js "contract Bank {";
           js "    function withdraw(uint amount) external {";
           js "        " ++ callLine;
           js "        " ++ balanceLine;
           js "    }";
           js "}"].

Definition updateThenCall : jsstring :=
  join_nl [js "contract Bank {";
           js "    function withdraw(uint amount) external {";
           js "        " ++ balanceLine;
           js "        " ++ callLine;
           js "    }";
           js "}"].

(** A function whose only body line assigns the result of a call: the line
    matches both expressions of the scanner. *)
Definition assignedCall : FunctionRecord :=
  appendLine (openFunction (js "function pay() external {"))
             (js "ok = target.call(data);").

Definition uncheckedSendFinding (ln : Z) : SmartCheckResult := {|
  severity := Medium;
  message := "Unchecked send/transfer detected";
  line := ln;
  column := 1;
  rule := "unchecked-send";
  description := "Unchecked return value from send/transfer call.";
  recommendation := "Always check the return value of send/transfer calls."
|}.

(** The trigger of the rule, on the text of one line. *)
Definition UncheckedSend (code : jsstring) : Prop :=
  (Contains (js ".send(") code \/ Contains (js ".transfer(") code)
  /\ ~ Contains (js "require(") code
  /\ ~ Contains (js "if (") code
  /\ ~ Contains (js "assert(") code.

(** The external-call expression of the scanner, as a property of a line:
    a dot, one of the three member names, any run of whitespace, then an
    opening parenthesis or brace. *)
Definition ExternalCall (ln : jsstring) : Prop :=
  exists pre kw ws c post,
    ln = pre ++ js "." ++ kw ++ ws ++ c :: post
    /\ In kw [js "call"; js "send"; js "transfer"]
    /\ Forall (fun x => isWhiteSpace x = true) ws
    /\ (c = ch "(" \/ c = ch "{").

(** The state-change expression of the scanner, as a property of a line: the
    two character classes match any plus, minus or equals sign. *)
Definition StateChange (ln : jsstring) : Prop :=
  exists c, In c ln /\ (c = ch "+" \/ c = ch "-" \/ c = ch "=").

(** The assignments the state-change expression is written for: a compound
    [+=] or [-=], or an equals sign, a space and a character that is not an
    equals sign. *)
Definition Assignment (ln : jsstring) : Prop :=
  Contains (js "+=") ln \/ Contains (js "-=") ln
  \/ exists c, c <> ch "=" /\ Contains (js "= " ++ [c]) ln.

(** A line that holds no plus, minus or equals sign, hence no operator. *)
Definition OperatorFree (ln : jsstring) : Prop :=
  ~ In (ch "+") ln /\ ~ In (ch "-") ln /\ ~ In (ch "=") ln.

(** The substrings of the reentrancy line rule of the catalogue. *)
Definition substringExternalCall (ln : jsstring) : bool :=
  includes (js ".call{") ln || includes (js ".send(") ln
  || includes (js ".transfer(") ln.

Definition substringStateChange (ln : jsstring) : bool :=
  includes (js "balances[") ln || includes (js "+=") ln
  || includes (js "-=") ln.

(** A scanner state with an open function and both flags still unset. *)
Definition openState : ScanState := {|
  currentFunction := Some (openFunction (js "function pay() external {"));
  functionStartLine := 1;
  results := []
|}.

(** A finding that is neither informational nor the sentinel. *)
Definition substantive (r : SmartCheckResult) : bool :=
  negb (Severity_eqb (severity r) Info)
  && negb (String.eqb (rule r) "analysis-complete").

(** [Similar r result]: same rule, at most two lines apart. *)
Definition Similar (r result : SmartCheckResult) : Prop :=
  rule r = rule result /\ (Z.abs (line r - line result) <= 2)%Z.

(** What the catalogue pass keeps true of the sequence it extends from
    [pre]: it has only appended, and nothing it appended is similar to a
    finding of [pre]. *)
Definition Extends (pre results : list SmartCheckResult) : Prop :=
  exists added,
    results = pre ++ added
    /\ forall f g, In f added -> In g pre -> similar g f = false.

(** A function reported by the analyzer whose next line but one also
    triggers the reentrancy line rule, and the same function with one more
    line in between. *)
Definition updateAndTransfer : jsstring :=
  js "balances[msg.sender] -= amount; msg.sender.transfer(fee);".

Definition twoLinesApart : jsstring :=
  join_nl [js "contract Bank {";
           js "function withdraw(uint amount) external {";
           callLine;
           updateAndTransfer;
           js "}";
           js "}"].

Definition threeLinesApart : jsstring :=
  join_nl [js "contract Bank {";
           js "function withdraw(uint amount) external {";
           callLine;
           js "require(success);";
           updateAndTransfer;
           js "}";
           js "}"].

(** [Grows l l']: [l'] is [l] with findings appended. *)
Definition Grows (l l' : list SmartCheckResult) : Prop :=
  exists more, l' = l ++ more.

(** The test of the preamble pass on one line. *)
Definition publicStateVariable (ln : jsstring) : bool :=
  includes (js "public") ln
  && negb (includes (js "constant") ln)
  && negb (includes (js "immutable") ln).

(** A valid contract whose only state variable is declared on its last
    line, and the same contract with the closing brace on a line of its
    own. *)
Definition variableOnLastLine : jsstring :=
  join_nl [js "contract Test {"; js "  uint public value; }"].

Definition variableThenBrace : jsstring :=
  join_nl [js "contract Test {"; js "  uint public value;"; js "}"].

(** ** Facts about the string operations *)

(** The lines of [lines] before its first signature line: the body of a
    function whose signature line has just been read. *)
Fixpoint bodyLines (lines : list jsstring) : list jsstring :=
  match lines with
  | [] => []
  | l :: t => if startsWith (js "function") l then [] else l :: bodyLines t
  end.

(** The records of a source, each with the index of its signature line
    ([i] is the index of the first of [lines]): a line starting with the
    function keyword opens a record, and the lines up to the next such line
    are appended to it. *)
Fixpoint functionRecords (lines : list jsstring) (i : Z)
  : list (FunctionRecord * Z) :=
  match lines with
  | [] => []
  | l :: t =>
      if startsWith (js "function") l
      then (fold_left appendLine (bodyLines t) (openFunction l), i)
           :: functionRecords t (i + 1)
      else functionRecords t (i + 1)
  end.

(** What is done with the state after the last line: the open function, if
    any, is analyzed. *)
Definition analyzeLast (st : ScanState) : list SmartCheckResult :=
  match currentFunction st with
  | Some f => analyzeFunction f (functionStartLine st) (results st)
  | None => results st
  end.

(** The findings of the analyzer for one record of [functionRecords]. *)
Definition analyzeRecord (p : FunctionRecord * Z) : list SmartCheckResult :=
  analyzeFunction (fst p) (snd p) [].

(** A line, as [split] gives it: no line feed in it. *)
Definition singleLine (l : jsstring) : Prop := Forall (fun c => c <> LF) l.

(** The test [isProtected] of the analyzer. *)
Definition isProtected (func : FunctionRecord) : bool :=
  hasModifier func && existsb (str_eqb (js "onlyOwner")) (modifiers func).

(** Some line of the record's text, once trimmed, starts with a test of
    [msg.value]. *)
Definition ValueValidated (func : FunctionRecord) : Prop :=
  exists ln,
    In ln (split_nl (code func))
    /\ (startsWith (js "require(msg.value") (trim ln) = true
        \/ startsWith (js "if (msg.value") (trim ln) = true).

(** A literal of forty hexadecimal digits after [0x], somewhere in a
    line. *)
Definition HexLiteral40 (ln : jsstring) : Prop :=
  exists pre digits post,
    ln = pre ++ js "0x" ++ digits ++ post
    /\ List.length digits = 40%nat
    /\ Forall (fun c => isHexDigit c = true) digits.

(** A finding agrees with the rule that produced it. *)
Definition agrees (r : Rule) (ln : Z) (res : SmartCheckResult) : Prop :=
  rule res = ruleId r
  /\ severity res = ruleSeverity r
  /\ recommendation res = ruleRecommendation r
  /\ line res = ln
  /\ column res = 1%Z.

(** The severity under which each rule identifier is reported. *)
Definition ruleSeverities : list (string * Severity) :=
  [ ("input-validation", Error); ("syntax", Error); ("internal-error", Error);
    ("analysis-complete", Info);
    ("state-visibility", Low);
    ("visibility", Medium); ("payable-validation", Medium);
    ("reentrancy", High);
    ("unprotected-init", High); ("unprotected-upgrade", High);
    ("unprotected-withdraw", High); ("unprotected-selfdestruct", High);
    ("tx-origin", High); ("timestamp-dependence", Medium);
    ("hardcoded-address", Medium); ("unchecked-send", Medium);
    ("delegatecall-usage", High); ("selfdestruct-usage", High);
    ("suicide-usage", High); ("throw-usage", Medium);
    ("gas-limit", Medium) ]%string.

Definition severityOf (id : string) : option Severity :=
  option_map snd (find (fun p => String.eqb (fst p) id) ruleSeverities).

(** A finding at column 1 whose severity is the one of its rule. *)
Definition graded (r : SmartCheckResult) : bool :=
  match severityOf (rule r) with
  | Some s => Severity_eqb s (severity r)
  | None => false
  end
  && (column r =? 1)%Z.

(** A finding whose line is one of the [n] lines of a text. *)
Definition within (n : Z) (r : SmartCheckResult) : bool :=
  (1 <=? line r)%Z && (line r <=? n)%Z.

(** A finding that only the scanner, the analyzer or the catalogue can
    produce: not informational, and under none of the rule identifiers of
    the entry point. *)
Definition fromAnalysis (r : SmartCheckResult) : bool :=
  substantive r
  && negb (String.eqb (rule r) "input-validation")
  && negb (String.eqb (rule r) "internal-error").

(** What the catalogue pass keeps true of what it appends to [pre]: no two
    of the appended findings are similar, and none is similar to a finding
    of [pre]. *)
Definition Separated (pre results : list SmartCheckResult) : Prop :=
  exists added,
    results = pre ++ added
    /\ ForallOrdPairs (fun a b => similar a b = false) added
    /\ forall f g, In f added -> In g pre -> similar g f = false.

Lemma dropPrefix_spec (pat s r : jsstring) :
  dropPrefix pat s = Some r <-> s = pat ++ r.
Proof.
  revert s; induction pat as [|p pat IH]; intros s; simpl.
  - split; [intros [= ->]|intros ->]; reflexivity.
  - destruct s as [|c s]; [split; discriminate|].
    destruct (N.eqb_spec p c) as [->|Hne].
    + rewrite IH. split; [intros ->|intros [= ->]]; reflexivity.
    + split; [discriminate|intros [= -> _]; contradiction].
Qed.

Lemma search_spec (m : jsstring -> bool) (s : jsstring) :
  search m s = true <-> exists pre suf, s = pre ++ suf /\ m suf = true.
Proof.
  induction s as [|c t IH]; simpl.
  - rewrite orb_false_r. split.
    + intros H; exists [], []; auto.
    + intros (pre & suf & E & H).
      symmetry in E; apply app_eq_nil in E as [_ ->]; exact H.
  - rewrite orb_true_iff, IH. split.
    + intros [H|(pre & suf & -> & H)].
      * exists [], (c :: t); auto.
      * exists (c :: pre), suf; auto.
    + intros (pre & suf & E & H). destruct pre as [|x pre]; simpl in E.
      * left; subst suf; exact H.
      * injection E as -> ->. right; exists pre, suf; auto.
Qed.

Lemma includes_spec (pat s : jsstring) :
  includes pat s = true <-> Contains pat s.
Proof.
  unfold includes, Contains, startsWith. rewrite search_spec. split.
  - intros (pre & suf & -> & H).
    destruct (dropPrefix pat suf) as [r|] eqn:E; [|discriminate].
    apply dropPrefix_spec in E as ->. exists pre, r; reflexivity.
  - intros (pre & post & ->). exists pre, (pat ++ post). split; [reflexivity|].
    destruct (dropPrefix pat (pat ++ post)) eqn:E; [reflexivity|].
    assert (H : dropPrefix pat (pat ++ post) = Some post)
      by (apply dropPrefix_spec; reflexivity).
    congruence.
Qed.

Lemma includes_false (pat s : jsstring) :
  includes pat s = false <-> ~ Contains pat s.
Proof.
  rewrite <- includes_spec. destruct (includes pat s); split; congruence.
Qed.

Lemma str_eqb_spec (a b : jsstring) : str_eqb a b = true <-> a = b.
Proof.
  revert b; induction a as [|x a IH]; intros [|y b]; simpl;
    try (split; [discriminate|discriminate]); [tauto|].
  rewrite andb_true_iff, N.eqb_eq, IH.
  split; [intros [-> ->]; reflexivity|intros [= -> ->]; auto].
Qed.

Lemma dropWhile_all (p : code_unit -> bool) (s : jsstring) :
  Forall (fun c => p c = true) s -> dropWhile p s = [].
Proof.
  induction 1 as [|c t Hc _ IH]; simpl; [reflexivity|]. rewrite Hc; exact IH.
Qed.

Lemma dropWhile_app (p : code_unit -> bool) (ws : jsstring) c rest :
  Forall (fun x => p x = true) ws -> p c = false ->
  dropWhile p (ws ++ c :: rest) = c :: rest.
Proof.
  induction 1 as [|x t Hx _ IH]; intros Hc; simpl.
  - rewrite Hc; reflexivity.
  - rewrite Hx; auto.
Qed.

Lemma dropWhile_split (p : code_unit -> bool) (s : jsstring) :
  exists ws, s = ws ++ dropWhile p s /\ Forall (fun x => p x = true) ws.
Proof.
  induction s as [|c t (ws & E & Hws)]; simpl.
  - exists []; auto.
  - destruct (p c) eqn:Hc.
    + exists (c :: ws); split; [simpl; congruence|constructor; assumption].
    + exists []; auto.
Qed.

Lemma dropWhile_head (p : code_unit -> bool) (s : jsstring) c t :
  dropWhile p s = c :: t -> p c = false.
Proof.
  induction s as [|x s IH]; simpl; [discriminate|].
  destruct (p x) eqn:Hx; [exact IH|intros [= <- _]; exact Hx].
Qed.

Lemma Forall_dropWhile (P : code_unit -> Prop) p (s : jsstring) :
  Forall P s -> Forall P (dropWhile p s).
Proof.
  induction 1 as [|c t Hc Ht IH]; simpl; [constructor|].
  destruct (p c); [exact IH|constructor; assumption].
Qed.

Lemma Forall_trimEnd (P : code_unit -> Prop) (s : jsstring) :
  Forall P s -> Forall P (trimEnd s).
Proof.
  induction 1 as [|c t Hc Ht IH]; simpl; [constructor|].
  destruct (trimEnd t) as [|x t'].
  - destruct (isWhiteSpace c); repeat constructor; assumption.
  - constructor; assumption.
Qed.

Lemma Forall_trim (P : code_unit -> Prop) (s : jsstring) :
  Forall P s -> Forall P (trim s).
Proof. intros H; apply Forall_trimEnd, Forall_dropWhile, H. Qed.

Lemma trimEnd_nonws (c : code_unit) (t : jsstring) :
  isWhiteSpace c = false -> trimEnd (c :: t) = c :: trimEnd t.
Proof. intros H; simpl. destruct (trimEnd t); [rewrite H|]; reflexivity. Qed.

Lemma trimEnd_idempotent (s : jsstring) : trimEnd (trimEnd s) = trimEnd s.
Proof.
  induction s as [|c t IH]; [reflexivity|]. simpl.
  destruct (trimEnd t) as [|x t'] eqn:E.
  - destruct (isWhiteSpace c) eqn:Hc; simpl; [|rewrite Hc]; reflexivity.
  - change (trimEnd (c :: x :: t')) with
      (match trimEnd (x :: t') with
       | [] => if isWhiteSpace c then [] else [c]
       | t'' => c :: t''
       end).
    rewrite IH; reflexivity.
Qed.

Lemma trim_idempotent (s : jsstring) : trim (trim s) = trim s.
Proof.
  unfold trim, trimStart.
  destruct (dropWhile isWhiteSpace s) as [|c t] eqn:E; [reflexivity|].
  pose proof (dropWhile_head _ _ _ _ E) as Hc.
  rewrite (trimEnd_nonws c t Hc). simpl dropWhile. rewrite Hc.
  rewrite (trimEnd_nonws c _ Hc), trimEnd_idempotent. reflexivity.
Qed.

Lemma trim_whitespace (s : jsstring) :
  Forall (fun c => isWhiteSpace c = true) s -> trim s = [].
Proof. intros H; unfold trim, trimStart. rewrite dropWhile_all; auto. Qed.

Lemma replace_crlf_without_CR (s : jsstring) :
  Forall (fun c => c <> CR) s -> replace_crlf s = s.
Proof.
  induction 1 as [|c t Hc Ht IH]; [reflexivity|].
  simpl. destruct t as [|d t']; [reflexivity|].
  destruct (N.eqb_spec c CR) as [->|_]; [contradiction|].
  simpl andb. cbv iota. rewrite IH; reflexivity.
Qed.

Lemma Forall_replace_crlf (P : code_unit -> Prop) (s : jsstring) :
  P LF -> Forall P s -> Forall P (replace_crlf s).
Proof.
  intros HLF.
  assert (H : forall n s, (List.length s <= n)%nat ->
                Forall P s -> Forall P (replace_crlf s)).
  { induction n as [|n IH]; intros [|c t] Hlen Hs; simpl in *;
      try constructor; try lia.
    - inversion Hs; subst. destruct t as [|d t']; [repeat constructor; auto|].
      inversion H2; subst.
      destruct (N.eqb c CR && N.eqb d LF).
      + constructor; [exact HLF|]. apply IH; [simpl in Hlen; lia|assumption].
      + constructor; [assumption|]. apply IH; [lia|assumption]. }
  intros Hs; exact (H _ s (le_n _) Hs).
Qed.

Lemma replaceAllChar_absent (c : code_unit) (rep s : jsstring) :
  Forall (fun x => x <> c) s -> replaceAllChar c rep s = s.
Proof.
  induction 1 as [|x t Hx _ IH]; simpl; [reflexivity|].
  destruct (N.eqb_spec x c); [contradiction|]. rewrite IH; reflexivity.
Qed.

Lemma Forall_replaceAllChar (P : code_unit -> Prop) c (rep s : jsstring) :
  Forall P rep -> (forall x, x <> c -> In x s -> P x) ->
  Forall P (replaceAllChar c rep s).
Proof.
  intros Hrep. induction s as [|x t IH]; intros Hs; simpl; [constructor|].
  destruct (N.eqb_spec x c) as [->|Hne].
  - apply Forall_app; split; [exact Hrep|]. apply IH.
    intros y Hy Hin; apply Hs; [exact Hy|right; exact Hin].
  - constructor; [apply Hs; [exact Hne|left; reflexivity]|].
    apply IH. intros y Hy Hin; apply Hs; [exact Hy|right; exact Hin].
Qed.

(** The text the preprocessor returns has no carriage return and no tab. *)
Lemma preprocess_without_CR (x : jsstring) :
  Forall (fun c => c <> CR) (preprocessSolidityCode x).
Proof.
  unfold preprocessSolidityCode. apply Forall_trim.
  apply Forall_replaceAllChar.
  - repeat constructor; discriminate.
  - intros c _ Hin. revert c Hin. apply Forall_forall.
    apply Forall_replaceAllChar.
    + repeat constructor; discriminate.
    + intros c Hc _; exact Hc.
Qed.

Lemma preprocess_without_TAB (x : jsstring) :
  Forall (fun c => c <> TAB) (preprocessSolidityCode x).
Proof.
  unfold preprocessSolidityCode. apply Forall_trim.
  apply Forall_replaceAllChar.
  - repeat constructor; discriminate.
  - intros c Hc _; exact Hc.
Qed.

Lemma replaceAllChar_other (c x : code_unit) (rep t : jsstring) :
  x <> c -> replaceAllChar c rep (x :: t) = x :: replaceAllChar c rep t.
Proof. intros H. simpl. destruct (N.eqb_spec x c); [contradiction|reflexivity]. Qed.

Lemma replaceAllChar_same (c : code_unit) (rep t : jsstring) :
  replaceAllChar c rep (c :: t) = rep ++ replaceAllChar c rep t.
Proof. simpl. rewrite N.eqb_refl. reflexivity. Qed.

Lemma replace_crlf_cons (c d : code_unit) (t : jsstring) :
  replace_crlf (c :: d :: t)
  = if N.eqb c CR && N.eqb d LF then LF :: replace_crlf t
    else c :: replace_crlf (d :: t).
Proof. reflexivity. Qed.

Lemma normalize_cons (c : code_unit) (t : jsstring) :
  normalizeLineEndingsAndTabs (c :: t)
  = if N.eqb c CR then
      match t with
      | d :: t' =>
          if N.eqb d LF then LF :: normalizeLineEndingsAndTabs t'
          else LF :: normalizeLineEndingsAndTabs t
      | [] => [LF]
      end
    else if N.eqb c TAB then js "    " ++ normalizeLineEndingsAndTabs t
    else c :: normalizeLineEndingsAndTabs t.
Proof. reflexivity. Qed.

Lemma replacements_one_pass (s : jsstring) :
  replaceAllChar TAB (js "    ") (replaceAllChar CR [LF] (replace_crlf s))
  = normalizeLineEndingsAndTabs s.
Proof.
  assert (HLC : LF <> CR) by discriminate.
  assert (HLT : LF <> TAB) by discriminate.
  assert (H : forall n s, (List.length s <= n)%nat ->
                replaceAllChar TAB (js "    ")
                  (replaceAllChar CR [LF] (replace_crlf s))
                = normalizeLineEndingsAndTabs s).
  { induction n as [|n IH]; intros [|c t] Hlen; simpl in Hlen;
      try reflexivity; try lia.
    destruct t as [|d t'].
    - simpl. destruct (N.eqb_spec c CR) as [->|Hc]; [reflexivity|].
      simpl. destruct (N.eqb c TAB); reflexivity.
    - rewrite replace_crlf_cons, normalize_cons.
      destruct (N.eqb_spec c CR) as [->|Hc]; cbn [andb].
      + destruct (N.eqb_spec d LF) as [->|Hd].
        * rewrite (replaceAllChar_other _ _ _ _ HLC),
            (replaceAllChar_other _ _ _ _ HLT).
          f_equal. apply IH. simpl in Hlen. lia.
        * rewrite replaceAllChar_same. cbn [app].
          rewrite (replaceAllChar_other _ _ _ _ HLT).
          f_equal. apply IH. lia.
      + rewrite (replaceAllChar_other _ _ _ _ Hc).
        destruct (N.eqb_spec c TAB) as [->|Ht].
        * rewrite replaceAllChar_same. f_equal. apply IH. lia.
        * rewrite (replaceAllChar_other _ _ _ _ Ht). f_equal. apply IH. lia. }
  exact (H _ s (le_n _)).
Qed.

(** ** The preprocessor is idempotent *)

(** C6. The preprocessor is a total function and it is idempotent:
    preprocessing an already preprocessed text changes nothing.  It converts
    every carriage return followed by a line feed, and every other carriage
    return, to a line feed, expands every tab to four spaces, and trims the
    whole text; the text it returns holds no carriage return and no tab, and
    is trimmed. *)
Theorem preprocess_idempotent (x : jsstring) :
  preprocessSolidityCode (preprocessSolidityCode x) = preprocessSolidityCode x
  /\ preprocessSolidityCode x = trim (normalizeLineEndingsAndTabs x)
  /\ ~ In CR (preprocessSolidityCode x)
  /\ ~ In TAB (preprocessSolidityCode x)
  /\ trim (preprocessSolidityCode x) = preprocessSolidityCode x.
Proof.
  pose proof (preprocess_without_CR x) as HCR.
  pose proof (preprocess_without_TAB x) as HTAB.
  assert (Htrim : trim (preprocessSolidityCode x) = preprocessSolidityCode x)
    by (unfold preprocessSolidityCode; apply trim_idempotent).
  split; [|split; [|split; [|split]]].
  - unfold preprocessSolidityCode at 1.
    rewrite (replace_crlf_without_CR _ HCR).
    rewrite (replaceAllChar_absent CR _ _ HCR).
    rewrite (replaceAllChar_absent TAB _ _ HTAB).
    exact Htrim.
  - unfold preprocessSolidityCode. rewrite replacements_one_pass. reflexivity.
  - intros Hin. rewrite Forall_forall in HCR. exact (HCR _ Hin eq_refl).
  - intros Hin. rewrite Forall_forall in HTAB. exact (HTAB _ Hin eq_refl).
  - exact Htrim.
Qed.

(** ** Sources without a contract declaration *)

Lemma findIndexFrom_absent {A : Type} (p : A -> bool) (l : list A) (i : Z) :
  existsb p l = false -> findIndexFrom (fun x _ => p x) l i = (-1)%Z.
Proof.
  revert i; induction l as [|x t IH]; intros i; simpl; [reflexivity|].
  destruct (p x); simpl; [discriminate|]. apply IH.
Qed.

Lemma findIndexFrom_bounds {A : Type} (p : A -> Z -> bool) (l : list A) (i : Z) :
  (0 <= i)%Z ->
  findIndexFrom p l i = (-1)%Z
  \/ (i <= findIndexFrom p l i < i + Z.of_nat (List.length l))%Z.
Proof.
  revert i; induction l as [|x t IH]; intros i Hi; simpl List.length; simpl findIndexFrom.
  - left; reflexivity.
  - destruct (p x i); [right; lia|].
    destruct (IH (i + 1)%Z ltac:(lia)) as [H|H]; [left; exact H|right; lia].
Qed.

Lemma findIndexFrom_found {A : Type} (p : A -> Z -> bool) (l : list A) :
  forall i : Z,
    (0 <= i)%Z ->
    findIndexFrom p l i <> (-1)%Z ->
    exists x, In x l /\ p x (findIndexFrom p l i) = true.
Proof.
  induction l as [|x t IH]; intros i Hi Hk; simpl in *; [contradiction|].
  destruct (p x i) eqn:E.
  - exists x; auto.
  - destruct (IH (i + 1)%Z ltac:(lia) Hk) as (y & Hy & Hp). exists y; auto.
Qed.

Lemma analyzeContractSimple_no_contract (code : jsstring) :
  hasContractLine code = false -> analyzeContractSimple code = [syntaxError].
Proof.
  unfold hasContractLine, analyzeContractSimple, findIndex. intros H.
  rewrite (findIndexFrom_absent _ _ 0%Z H). reflexivity.
Qed.

Lemma analyzeContract_string (sb : Supabase) (s : jsstring) :
  s <> [] -> persistenceReturns sb = true ->
  analyzeContract sb (JsString s)
  = finalize (analyzeContractSimple (preprocessSolidityCode s)).
Proof.
  intros Hs Hsb. destruct s as [|c t]; [contradiction|].
  unfold analyzeContract. rewrite Hsb. reflexivity.
Qed.

(** C8. When no line of the normalized, trimmed source starts with the
    contract keyword, the scanner returns the single syntax finding (error,
    line 1, column 1) and nothing else, whatever the lines hold: no
    preamble, function or rule finding.  The entry point, given that source
    as a non-empty string (the empty string stops at input validation) and a
    persistence collaborator that returns, returns exactly that finding. *)
Theorem no_contract_declaration :
  (forall code : jsstring,
      hasContractLine code = false ->
      analyzeContractSimple code = [syntaxError])
  /\ (forall (sb : Supabase) (s : jsstring),
         s <> [] ->
         persistenceReturns sb = true ->
         hasContractLine (preprocessSolidityCode s) = false ->
         analyzeContract sb (JsString s) = [syntaxError])
  /\ severity syntaxError = Error /\ rule syntaxError = "syntax"%string
  /\ line syntaxError = 1%Z /\ column syntaxError = 1%Z
  /\ message syntaxError = "No contract declaration found"%string.
Proof.
  split; [exact analyzeContractSimple_no_contract|].
  split; [|repeat split].
  intros sb s Hs Hsb Hno.
  rewrite (analyzeContract_string sb s Hs Hsb),
    (analyzeContractSimple_no_contract _ Hno).
  reflexivity.
Qed.

(** A source with a public state variable and a use of [tx.origin], but no
    contract line: only the syntax finding is returned. *)
Lemma no_contract_declaration_witness :
  let s := join_nl [js "pragma solidity ^0.8.0;"; js "  uint public value;";
                    js "owner = tx.origin;"] in
  s <> [] /\ hasContractLine (preprocessSolidityCode s) = false
  /\ analyzeContractSimple (preprocessSolidityCode s) = [syntaxError]
  /\ analyzeContract NoUser (JsString s) = [syntaxError].
Proof.
  intros s.
  assert (Hs : s <> []) by (vm_compute; discriminate).
  assert (Hno : hasContractLine (preprocessSolidityCode s) = false)
    by (vm_compute; reflexivity).
  split; [exact Hs|]. split; [exact Hno|]. split.
  - exact (proj1 no_contract_declaration _ Hno).
  - exact (proj1 (proj2 no_contract_declaration) NoUser s Hs eq_refl Hno).
Defined.

(** ** Whitespace-only input *)

Lemma preprocess_whitespace (s : jsstring) :
  Forall (fun c => isWhiteSpace c = true) s -> preprocessSolidityCode s = [].
Proof.
  intros H. unfold preprocessSolidityCode. apply trim_whitespace.
  apply Forall_replaceAllChar; [repeat constructor|].
  intros c _ Hin; revert c Hin; apply Forall_forall.
  apply Forall_replaceAllChar; [repeat constructor|].
  intros c _ Hin; revert c Hin; apply Forall_forall.
  apply Forall_replace_crlf; [reflexivity|exact H].
Qed.

(** C10. A non-empty string made of whitespace only is truthy, so the entry
    point does not stop at input validation: the preprocessor trims it to
    the empty string, which has no contract line, and the result is the
    single syntax finding, not the input-validation one. *)
Theorem whitespace_only_input (sb : Supabase) (s : jsstring) :
  s <> [] ->
  Forall (fun c => isWhiteSpace c = true) s ->
  persistenceReturns sb = true ->
  preprocessSolidityCode s = []
  /\ hasContractLine (preprocessSolidityCode s) = false
  /\ analyzeContract sb (JsString s) = [syntaxError]
  /\ analyzeContract sb (JsString s) <> [inputValidationError]
  /\ severity syntaxError = Error /\ rule syntaxError = "syntax"%string.
Proof.
  intros Hs Hws Hsb.
  pose proof (preprocess_whitespace s Hws) as E.
  assert (R : analyzeContract sb (JsString s) = [syntaxError]).
  { rewrite (analyzeContract_string sb s Hs Hsb), E. reflexivity. }
  rewrite E, R. repeat split. discriminate.
Qed.

(** Two spaces, a tab, a carriage return and a line feed. *)
Lemma whitespace_only_input_witness :
  let s := js "  " ++ [TAB; CR; LF] in
  s <> [] /\ analyzeContract NoUser (JsString s) = [syntaxError].
Proof.
  intros s.
  assert (Hs : s <> []) by (vm_compute; discriminate).
  split; [exact Hs|].
  refine (proj1 (proj2 (proj2 (whitespace_only_input NoUser s Hs _ eq_refl)))).
  repeat constructor.
Defined.

(** ** The function analyzer *)

Lemma withRule_In id r results :
  In r (withRule id results) <-> In r results /\ rule r = id.
Proof. unfold withRule. rewrite filter_In, String.eqb_eq. tauto. Qed.

Lemma withRule_app id l1 l2 :
  withRule id (l1 ++ l2) = withRule id l1 ++ withRule id l2.
Proof. apply filter_app. Qed.

Lemma withRule_when id b r :
  withRule id (when b r) = when (b && String.eqb (rule r) id) r.
Proof. destruct b; simpl; [destruct (String.eqb (rule r) id)|]; reflexivity. Qed.

(** The analyzer only appends to the sequence it is given. *)
Lemma analyzeFunction_emits func startLine results :
  analyzeFunction func startLine results = results ++ emitted func startLine.
Proof.
  unfold analyzeFunction, emitted, stateChangeIndex, externalCallIndex, push.
  generalize (visibilityFinding startLine) (payableValidationFinding startLine)
    (reentrancyFinding startLine) (unprotectedInitFinding startLine)
    (unprotectedUpgradeFinding startLine) (unprotectedWithdrawFinding startLine)
    (unprotectedSelfdestructFinding startLine).
  intros v p r i u w d.
  generalize
    (match visibility func with Some Public => true | _ => false end
     && negb (includes (js "pure") (code func))
     && negb (includes (js "view") (code func))).
  generalize (isPayable func).
  generalize
    (existsb
       (fun ln =>
          startsWith (js "require(msg.value") (trim ln)
          || startsWith (js "if (msg.value") (trim ln))
       (split_nl (code func))).
  generalize (hasExternalCall func && hasStateChange func).
  generalize
    (findIndex (fun ln _ => stateChangePattern ln) (split_nl (code func))
     >? findIndex (fun ln _ => externalCallPattern ln) (split_nl (code func)))%Z.
  generalize
    (hasModifier func && existsb (str_eqb (js "onlyOwner")) (modifiers func)).
  generalize (str_eqb (functionNameOf (code func)) (js "initialize")).
  generalize (str_eqb (functionNameOf (code func)) (js "upgrade")).
  generalize (str_eqb (functionNameOf (code func)) (js "withdraw")).
  generalize
    (existsb (fun ln => includes (js "selfdestruct") ln) (split_nl (code func))).
  intros [] [] [] [] [] [] [] [] [] []; simpl;
    rewrite <- ?app_assoc, ?app_nil_r; reflexivity.
Qed.

Ltac rule_off :=
  match goal with
  | |- context [when (?b && String.eqb (rule ?r) ?id) ?r] =>
      change (String.eqb (rule r) id) with false;
      rewrite (andb_false_r b); change (when false r) with (@nil SmartCheckResult)
  end.

Ltac rule_on :=
  match goal with
  | |- context [when (?b && String.eqb (rule ?r) ?id) ?r] =>
      change (String.eqb (rule r) id) with true; rewrite (andb_true_r b)
  end.

Lemma emitted_reentrancy func startLine :
  withRule "reentrancy" (emitted func startLine)
  = when (hasExternalCall func && hasStateChange func
          && (stateChangeIndex func >? externalCallIndex func)%Z)
         (reentrancyFinding startLine).
Proof.
  unfold emitted. rewrite !withRule_app, !withRule_when.
  rule_on. repeat rule_off. rewrite app_nil_r. reflexivity.
Qed.


Lemma analyzeFunction_appends func startLine results :
  analyzeFunction func startLine results
  = results ++ analyzeFunction func startLine [].
Proof. rewrite !analyzeFunction_emits. reflexivity. Qed.

Lemma In_when b r x : In x (when b r) <-> b = true /\ x = r.
Proof.
  destruct b; simpl; split; try tauto.
  - intros [->|[]]; auto.
  - intros [_ ->]; auto.
  - intros [[=] _].
Qed.

(** ** Reentrancy ordering *)

(** C1, as the code has it.  For a record with both flags set, the analyzer
    appends the high-severity reentrancy finding, at [startLine + 1], exactly
    when the first line matching the state-change expression comes strictly
    after the first line matching the external-call expression; it appends no
    other finding under that rule.  The example of the specification (a call
    line followed by a balance update) is reported, and is not once the two
    lines are exchanged. *)
Theorem reentrancy_ordering :
  (forall func startLine results,
      hasExternalCall func = true ->
      hasStateChange func = true ->
      analyzeFunction func startLine results
      = results ++ analyzeFunction func startLine []
      /\ (In (reentrancyFinding startLine) (analyzeFunction func startLine [])
          <-> (stateChangeIndex func > externalCallIndex func)%Z)
      /\ (forall r, In r (analyzeFunction func startLine []) ->
                    rule r = "reentrancy"%string ->
                    r = reentrancyFinding startLine)
      /\ severity (reentrancyFinding startLine) = High
      /\ line (reentrancyFinding startLine) = (startLine + 1)%Z)
  /\ withRule "reentrancy" (analyzeContract NoUser (JsString callThenUpdate))
     = [reentrancyFinding 1]
  /\ withRule "reentrancy" (analyzeContract NoUser (JsString updateThenCall))
     = [].
Proof.
  split; [|split; vm_compute; reflexivity].
  intros func startLine results He Hs.
  split; [apply analyzeFunction_appends|].
  pose proof (emitted_reentrancy func startLine) as E.
  rewrite He, Hs in E. simpl andb in E.
  rewrite (analyzeFunction_emits func startLine []). simpl app.
  split; [|split; [|split; reflexivity]].
  - rewrite <- Z.gtb_gt. split.
    + intros Hin.
      assert (H : In (reentrancyFinding startLine)
                     (withRule "reentrancy" (emitted func startLine)))
        by (apply withRule_In; split; [exact Hin|reflexivity]).
      rewrite E in H. apply In_when in H. tauto.
    + intros Hb.
      assert (H : In (reentrancyFinding startLine)
                     (withRule "reentrancy" (emitted func startLine)))
        by (rewrite E; apply In_when; auto).
      apply withRule_In in H. tauto.
  - intros r Hin Hr.
    assert (H : In r (withRule "reentrancy" (emitted func startLine)))
      by (apply withRule_In; auto).
    rewrite E in H. apply In_when in H. tauto.
Qed.

(** The record the scanner builds for the function of [callThenUpdate]. *)
Lemma reentrancy_ordering_witness :
  let func :=
    appendLine
      (appendLine (openFunction (js "function withdraw(uint amount) external {"))
                  callLine)
      balanceLine in
  (stateChangeIndex func > externalCallIndex func)%Z
  /\ In (reentrancyFinding 1) (analyzeFunction func 1 []).
Proof.
  intros func.
  assert (Hgt : (stateChangeIndex func > externalCallIndex func)%Z)
    by (vm_compute; reflexivity).
  split; [exact Hgt|].
  exact (proj2 (proj1 (proj2
           (proj1 reentrancy_ordering func 1%Z [] eq_refl eq_refl))) Hgt).
Defined.

(** C1 as stated fails when the two first matches are the same line: the
    state-change index is then not earlier than the external-call index, and
    the analyzer reports nothing. *)
Lemma reentrancy_same_line_not_reported :
  hasExternalCall assignedCall = true
  /\ hasStateChange assignedCall = true
  /\ (stateChangeIndex assignedCall >= externalCallIndex assignedCall)%Z
  /\ ~ In (reentrancyFinding 1) (analyzeFunction assignedCall 1 [])
  /\ withRule "reentrancy" (analyzeFunction assignedCall 1 []) = []
  /\ withRule "reentrancy"
       (analyzeContract NoUser
          (JsString (join_nl [js "contract Wallet {";
                              js "function pay() external {";
                              js "ok = target.call(data);";
                              js "}"; js "}"]))) = [].
Proof.
  assert (E : withRule "reentrancy" (analyzeFunction assignedCall 1 []) = [])
    by (vm_compute; reflexivity).
  repeat split; try (vm_compute; reflexivity); try exact E.
  - vm_compute; discriminate.
  - intros Hin.
    assert (H : In (reentrancyFinding 1)
                   (withRule "reentrancy" (analyzeFunction assignedCall 1 [])))
      by (apply withRule_In; split; [exact Hin|reflexivity]).
    rewrite E in H. exact H.
Qed.

(** ** Public functions without a mutability specifier *)



(** ** The unchecked-send rule *)

(** C9. The fifth rule of the catalogue, [unchecked-send], given a line and
    its number, returns the medium-severity finding of that rule, at that
    line and column 1, exactly when the line contains [.send(] or
    [.transfer(] and none of [require(], [if (], [assert(]; otherwise it
    returns nothing. *)
Theorem unchecked_send_rule (code : jsstring) (ln : Z) :
  nth_error rules 4 = Some uncheckedSendRule
  /\ ruleId uncheckedSendRule = "unchecked-send"%string
  /\ (check uncheckedSendRule code ln = Some (uncheckedSendFinding ln)
      <-> UncheckedSend code)
  /\ (check uncheckedSendRule code ln = None <-> ~ UncheckedSend code)
  /\ severity (uncheckedSendFinding ln) = Medium
  /\ rule (uncheckedSendFinding ln) = "unchecked-send"%string
  /\ line (uncheckedSendFinding ln) = ln
  /\ column (uncheckedSendFinding ln) = 1%Z.
Proof.
  split; [reflexivity|]. split; [reflexivity|].
  split; [|split; [|repeat split]];
    unfold UncheckedSend; rewrite <- !includes_spec;
    cbv beta iota zeta delta [check uncheckedSendRule];
    fold (uncheckedSendFinding ln);
    destruct (includes (js ".send(") code), (includes (js ".transfer(") code),
      (includes (js "require(") code), (includes (js "if (") code),
      (includes (js "assert(") code); simpl; intuition congruence.
Qed.

(** ** The flags of the function record *)

Lemma dropPrefix_app (pat r : jsstring) : dropPrefix pat (pat ++ r) = Some r.
Proof. apply dropPrefix_spec; reflexivity. Qed.

Lemma firstAlt_sound (alts : list jsstring) (s r : jsstring) :
  firstAlt alts s = Some r -> exists a, In a alts /\ s = a ++ r.
Proof.
  induction alts as [|a alts IH]; simpl; [discriminate|].
  destruct (dropPrefix a s) as [r'|] eqn:E.
  - intros [= ->]. apply dropPrefix_spec in E. exists a; auto.
  - intros H. destruct (IH H) as (a' & Hin & Ha). exists a'; auto.
Qed.

Lemma stateChangePattern_spec (ln : jsstring) :
  stateChangePattern ln = true <-> StateChange ln.
Proof.
  unfold stateChangePattern, StateChange. rewrite search_spec. split.
  - intros (pre & [|c t] & -> & H); [discriminate|].
    exists c. split; [apply in_or_app; right; left; reflexivity|].
    simpl in H. rewrite !orb_true_iff, andb_true_iff, !N.eqb_eq in H.
    tauto.
  - intros (c & Hin & Hc). apply in_split in Hin as (l1 & l2 & ->).
    exists l1, (c :: l2). split; [reflexivity|].
    destruct Hc as [-> | [-> | ->]]; reflexivity.
Qed.

Lemma externalCallPattern_spec (ln : jsstring) :
  externalCallPattern ln = true <-> ExternalCall ln.
Proof.
  unfold externalCallPattern, ExternalCall. rewrite search_spec. split.
  - intros (pre & suf & -> & H). unfold externalCallAt in H.
    destruct (dropPrefix (js ".") suf) as [r|] eqn:E1; [|discriminate].
    apply dropPrefix_spec in E1 as ->.
    destruct (firstAlt _ r) as [r'|] eqn:E2; [|discriminate].
    apply firstAlt_sound in E2 as (kw & Hkw & ->).
    destruct (dropWhile_split isWhiteSpace r') as (ws & E3 & Hws).
    destruct (dropWhile isWhiteSpace r') as [|c post]; [discriminate|].
    exists pre, kw, ws, c, post. rewrite <- E3.
    rewrite orb_true_iff, !N.eqb_eq in H. auto.
  - intros (pre & kw & ws & c & post & -> & Hkw & Hws & Hc).
    exists pre, (js "." ++ kw ++ ws ++ c :: post). split; [reflexivity|].
    unfold externalCallAt. rewrite dropPrefix_app.
    assert (E : firstAlt [js "call"; js "send"; js "transfer"]
                  (kw ++ ws ++ c :: post) = Some (ws ++ c :: post)).
    { destruct Hkw as [<- | [<- | [<- | []]]]; reflexivity. }
    rewrite E, (dropWhile_app isWhiteSpace ws c post Hws).
    + destruct Hc as [->| ->]; reflexivity.
    + destruct Hc as [->| ->]; reflexivity.
Qed.

Lemma Contains_In (c : code_unit) (more s : jsstring) :
  Contains (c :: more) s -> In c s.
Proof.
  intros (pre & post & ->). apply in_or_app. right. left. reflexivity.
Qed.

Lemma Assignment_StateChange (ln : jsstring) :
  Assignment ln -> StateChange ln.
Proof.
  intros [H | [H | (c & _ & H)]].
  - exists (ch "+"). split; [exact (Contains_In _ _ _ H) | auto].
  - exists (ch "-"). split; [exact (Contains_In _ _ _ H) | auto].
  - exists (ch "="). split; [exact (Contains_In _ _ _ H) | auto].
Qed.

Lemma OperatorFree_not_StateChange (ln : jsstring) :
  OperatorFree ln -> ~ StateChange ln.
Proof.
  intros (Hp & Hm & He) (c & Hin & [-> | [-> | ->]]); auto.
Qed.

(** C3, as the code has it.  A line that is not a signature line, read while
    a function is open, is appended to the record's text after a line feed.
    It sets [hasExternalCall] exactly when it matches the scanner's own
    external-call expression (a dot, [call], [send] or [transfer], optional
    whitespace, then an opening parenthesis or brace).  It sets
    [hasStateChange] whenever it holds an assignment: [+=], [-=], or an
    equals sign, a space and a character other than an equals sign; a line
    with no plus, minus or equals sign leaves [hasStateChange] as it was,
    whatever else it contains.  A flag that is set stays set, and nothing
    else in the record or in the findings changes. *)
Theorem body_line_flags (st : ScanState) (f : FunctionRecord)
    (ln : jsstring) (i : Z) :
  startsWith (js "function") ln = false ->
  currentFunction st = Some f ->
  exists f',
    scanLine st ln i
    = {| currentFunction := Some f';
         functionStartLine := functionStartLine st;
         results := results st |}
    /\ code f' = code f ++ LF :: ln
    /\ (hasExternalCall f' = true
        <-> hasExternalCall f = true \/ ExternalCall ln)
    /\ (hasStateChange f = true -> hasStateChange f' = true)
    /\ (Assignment ln -> hasStateChange f' = true)
    /\ (OperatorFree ln -> hasStateChange f' = hasStateChange f)
    /\ isPayable f' = isPayable f
    /\ visibility f' = visibility f
    /\ hasModifier f' = hasModifier f
    /\ modifiers f' = modifiers f.
Proof.
  intros Hsig Hcur. exists (appendLine f ln).
  unfold scanLine. rewrite Hsig, Hcur.
  split; [reflexivity|]. split; [reflexivity|].
  split.
  { rewrite <- externalCallPattern_spec. unfold appendLine; simpl.
    destruct (externalCallPattern ln), (hasExternalCall f);
      intuition congruence. }
  split.
  { unfold appendLine; simpl. intros ->.
    destruct (stateChangePattern ln); reflexivity. }
  split.
  { intros H. apply Assignment_StateChange, stateChangePattern_spec in H.
    unfold appendLine; simpl. rewrite H. reflexivity. }
  split.
  { intros H. apply OperatorFree_not_StateChange in H.
    rewrite <- stateChangePattern_spec in H.
    unfold appendLine; simpl.
    destruct (stateChangePattern ln); [destruct H; reflexivity|reflexivity]. }
  repeat split.
Qed.

(** A plain assignment read by [openState]. *)
Lemma body_line_flags_witness :
  exists f',
    currentFunction (scanLine openState (js "total = 1;") 2) = Some f'
    /\ hasStateChange f' = true /\ hasExternalCall f' = false.
Proof.
  destruct (body_line_flags openState
              (openFunction (js "function pay() external {"))
              (js "total = 1;") 2%Z eq_refl eq_refl)
    as (f' & E & _ & Hext & _ & Hst & _).
  exists f'. rewrite E. split; [reflexivity|]. split.
  - apply Hst. right. right. exists (ch "1"). split; [discriminate|].
    exists (js "total "), (js ";"). reflexivity.
  - destruct (hasExternalCall f') eqn:Ee; [|reflexivity].
    apply proj1 in Hext. destruct (Hext eq_refl) as [H|H].
    + discriminate H.
    + apply externalCallPattern_spec in H. discriminate H.
Defined.

(** C3 as stated fails in both directions and for both flags: a plain
    assignment and a parenthesised low-level call set the flags without any
    of the substrings of the line rule, and a read of [balances[...]], a
    line with no operator, has such a substring without setting a flag. *)
Lemma body_line_flags_not_substrings :
  (substringStateChange (js "total = 1;") = false
   /\ hasStateChange
        (appendLine (openFunction (js "function pay() external {"))
                    (js "total = 1;")) = true)
  /\ (substringExternalCall (js "target.call(data);") = false
      /\ hasExternalCall
           (appendLine (openFunction (js "function pay() external {"))
                       (js "target.call(data);")) = true)
  /\ (substringStateChange (js "return balances[user];") = true
      /\ hasStateChange
           (appendLine (openFunction (js "function pay() external {"))
                       (js "return balances[user];")) = false).
Proof. repeat split; vm_compute; reflexivity. Qed.

(** ** The sentinel finding *)

Lemma forEachFrom_invariant {A S : Type} (I : S -> Prop)
    (f : S -> A -> Z -> S) (l : list A) :
  (forall st x i, I st -> I (f st x i)) ->
  forall i st, I st -> I (forEachFrom f l i st).
Proof.
  intros Hf. induction l as [|x t IH]; intros i st Hst; simpl; auto.
Qed.

Lemma fold_left_invariant {A S : Type} (I : S -> Prop)
    (f : S -> A -> S) (l : list A) :
  (forall st x, I st -> I (f st x)) ->
  forall st, I st -> I (fold_left f l st).
Proof.
  intros Hf. induction l as [|x t IH]; intros st Hst; simpl; auto.
Qed.

Lemma forallb_push (p : SmartCheckResult -> bool) results r :
  forallb p results = true -> p r = true -> forallb p (push results r) = true.
Proof.
  intros H1 H2. unfold push. rewrite forallb_app, H1. simpl. rewrite H2.
  reflexivity.
Qed.

Lemma forallb_when (p : SmartCheckResult -> bool) b r :
  p r = true -> forallb p (when b r) = true.
Proof. intros H. destruct b; simpl; [rewrite H|]; reflexivity. Qed.

Lemma emitted_substantive func startLine :
  forallb substantive (emitted func startLine) = true.
Proof.
  unfold emitted. rewrite !forallb_app, !forallb_when; reflexivity.
Qed.

Lemma analyzeFunction_substantive func startLine results :
  forallb substantive results = true ->
  forallb substantive (analyzeFunction func startLine results) = true.
Proof.
  intros H. rewrite analyzeFunction_emits, forallb_app, H, emitted_substantive.
  reflexivity.
Qed.

Lemma checkStateVariable_substantive contractLine results ln index :
  forallb substantive results = true ->
  forallb substantive (checkStateVariable contractLine results ln index) = true.
Proof.
  intros H. unfold checkStateVariable.
  destruct (_ && _); [apply forallb_push; [exact H|reflexivity]|exact H].
Qed.

Lemma scanLine_substantive st ln i :
  forallb substantive (results st) = true ->
  forallb substantive (results (scanLine st ln i)) = true.
Proof.
  intros H. unfold scanLine.
  destruct (startsWith (js "function") ln); simpl.
  - destruct (currentFunction st);
      [apply analyzeFunction_substantive|]; exact H.
  - destruct (currentFunction st); exact H.
Qed.

Ltac check_cases H :=
  repeat match type of H with
         | (if ?b then _ else _) = _ => destruct b
         end;
  try discriminate H; injection H as <-; reflexivity.

Lemma rules_substantive :
  Forall (fun r => forall code ln res,
              check r code ln = Some res -> substantive res = true) rules.
Proof.
  unfold rules. repeat constructor; intros code ln res H.
  - cbv beta iota zeta delta [check reentrancyRule] in H. check_cases H.
  - cbv beta iota zeta delta [check txOriginRule] in H. check_cases H.
  - cbv beta iota zeta delta [check timestampRule] in H. check_cases H.
  - cbv beta iota zeta delta [check hardcodedAddressRule] in H. check_cases H.
  - cbv beta iota zeta delta [check uncheckedSendRule] in H. check_cases H.
  - cbv beta iota zeta delta [check delegatecallRule] in H. check_cases H.
  - cbv beta iota zeta delta [check selfdestructRule] in H. check_cases H.
  - cbv beta iota zeta delta [check suicideRule] in H. check_cases H.
  - cbv beta iota zeta delta [check throwRule] in H. check_cases H.
  - cbv beta iota zeta delta [check gasLimitRule] in H. check_cases H.
Qed.

Lemma pushUnlessSimilar_substantive results result :
  forallb substantive results = true -> substantive result = true ->
  forallb substantive (pushUnlessSimilar results result) = true.
Proof.
  intros H1 H2. unfold pushUnlessSimilar.
  destruct (negb _); [apply forallb_push|]; assumption.
Qed.

Lemma applyRules_substantive lines results :
  forallb substantive results = true ->
  forallb substantive (applyRules lines results) = true.
Proof.
  unfold applyRules, forEach.
  apply (forEachFrom_invariant (fun rs => forallb substantive rs = true)).
  intros st ln i Hst. pose proof rules_substantive as HR.
  revert st Hst. induction HR as [|r rs Hr _ IH]; intros st Hst; simpl; auto.
  apply IH. unfold applyRule.
  destruct (check r ln (i + 1)) as [res|] eqn:E; [|exact Hst].
  apply pushUnlessSimilar_substantive; [exact Hst|exact (Hr _ _ _ E)].
Qed.

Lemma functionPass_substantive lines contractLine :
  forallb substantive (functionPass lines contractLine) = true.
Proof.
  unfold functionPass.
  set (pre := forEach _ (slice _ _ _) []).
  assert (Hpre : forallb substantive pre = true).
  { unfold pre, forEach.
    apply (forEachFrom_invariant (fun rs => forallb substantive rs = true));
      [|reflexivity].
    intros st x i. apply checkStateVariable_substantive. }
  set (st := forEach scanLine lines _).
  assert (Hst : forallb substantive (results st) = true).
  { unfold st, forEach.
    apply (forEachFrom_invariant
             (fun s => forallb substantive (results s) = true));
      [|exact Hpre].
    intros s x i. apply scanLine_substantive. }
  destruct (currentFunction st); [apply analyzeFunction_substantive|];
    exact Hst.
Qed.

Lemma analyzeContractSimple_substantive code :
  forallb substantive (analyzeContractSimple code) = true.
Proof.
  unfold analyzeContractSimple. destruct (_ =? _)%Z; [reflexivity|].
  apply applyRules_substantive, functionPass_substantive.
Qed.

Lemma finalize_substantive results :
  forallb substantive results = true ->
  finalize results = [analysisComplete]
  \/ (finalize results = results /\ results <> []).
Proof.
  intros H. unfold finalize. destruct results as [|r rs]; [left; reflexivity|].
  right. simpl in *. apply andb_true_iff in H as [Hr _].
  unfold substantive in Hr. apply andb_true_iff in Hr as [Hr _].
  apply negb_true_iff in Hr. rewrite Hr. simpl. split; [reflexivity|discriminate].
Qed.

(** C2. Whatever the input and the persistence collaborator, the result of
    the entry point is either the sentinel alone or holds no finding under
    the sentinel's rule, so the sentinel never comes with a finding that is
    not informational.  The last step replaces an empty or all-informational
    sequence by the single sentinel and returns any other sequence as it is,
    and for a non-empty string (the collaborator returning) the result is
    that step applied to the scanner's findings. *)
Theorem sentinel_alone (sb : Supabase) (input : JsValue) :
  (analyzeContract sb input = [analysisComplete]
   \/ forall r, In r (analyzeContract sb input) ->
                rule r <> "analysis-complete"%string)
  /\ (forall r r',
         In r (analyzeContract sb input) ->
         rule r = "analysis-complete"%string ->
         In r' (analyzeContract sb input) ->
         severity r' = Info)
  /\ (forall results,
         results = [] \/ Forall (fun r => severity r = Info) results ->
         finalize results = [analysisComplete])
  /\ (forall results,
         results <> [] ->
         ~ Forall (fun r => severity r = Info) results ->
         finalize results = results)
  /\ (forall s,
         input = JsString s -> s <> [] -> persistenceReturns sb = true ->
         analyzeContract sb input
         = finalize (analyzeContractSimple (preprocessSolidityCode s)))
  /\ severity analysisComplete = Info
  /\ rule analysisComplete = "analysis-complete"%string.
Proof.
  assert (Hinfo : forall results,
             forallb (fun r => Severity_eqb (severity r) Info) results = true
             <-> Forall (fun r => severity r = Info) results).
  { intros results. rewrite forallb_forall, Forall_forall.
    split; intros H r Hr; specialize (H r Hr);
      destruct (severity r); simpl in *; congruence. }
  assert (Hmain : analyzeContract sb input = [analysisComplete]
                  \/ forall r, In r (analyzeContract sb input) ->
                               rule r <> "analysis-complete"%string).
  { destruct input as [[|c t]|]; simpl.
    - right; intros r [<-|[]]; discriminate.
    - destruct (persistenceReturns sb).
      + pose proof (analyzeContractSimple_substantive
                      (preprocessSolidityCode (c :: t))) as Hsub.
        destruct (finalize_substantive _ Hsub) as [->|[-> _]];
          [left; reflexivity|].
        right. intros r Hr. rewrite forallb_forall in Hsub.
        specialize (Hsub r Hr). unfold substantive in Hsub.
        apply andb_true_iff in Hsub as [_ Hsub].
        apply negb_true_iff, String.eqb_neq in Hsub. exact Hsub.
      + right; intros r [<-|[]]; discriminate.
    - right; intros r [<-|[]]; discriminate. }
  split; [exact Hmain|]. split; [|split; [|split; [|split; [|split]]]];
    try reflexivity.
  - intros r r' Hr Hrule Hr'. destruct Hmain as [E|Hno].
    + rewrite E in Hr'. destruct Hr' as [<-|[]]. reflexivity.
    + destruct (Hno r Hr Hrule).
  - intros results [->|H]; [reflexivity|]. unfold finalize.
    apply Hinfo in H. rewrite H, orb_true_r. reflexivity.
  - intros results Hne Hnot. unfold finalize.
    destruct results as [|r rs]; [contradiction|]. simpl Nat.eqb.
    destruct (forallb _ (r :: rs)) eqn:E; [|reflexivity].
    apply Hinfo in E. contradiction.
  - intros s -> Hs Hsb. apply analyzeContract_string; assumption.
Qed.

(** ** Merging the findings of the rule catalogue *)

Lemma similar_spec result r : similar result r = true <-> Similar r result.
Proof.
  unfold similar, Similar. rewrite andb_true_iff, String.eqb_eq, Z.leb_le.
  tauto.
Qed.

Lemma similar_sym a b : similar a b = similar b a.
Proof.
  unfold similar. rewrite (String.eqb_sym (rule b) (rule a)). f_equal.
  rewrite <- (Z.abs_opp (line b - line a)).
  replace (- (line b - line a))%Z with (line a - line b)%Z by lia.
  reflexivity.
Qed.

Lemma existsb_similar results result :
  existsb (similar result) results = true
  <-> exists r, In r results /\ Similar r result.
Proof.
  rewrite existsb_exists. split; intros (r & Hin & H); exists r;
    (split; [exact Hin|apply similar_spec; exact H]).
Qed.

Lemma Extends_refl pre : Extends pre pre.
Proof. exists []. rewrite app_nil_r. split; [reflexivity|intros f g []]. Qed.

Lemma pushUnlessSimilar_Extends pre results result :
  Extends pre results -> Extends pre (pushUnlessSimilar results result).
Proof.
  intros (added & -> & Hadd). unfold pushUnlessSimilar, push.
  destruct (existsb (similar result) (pre ++ added)) eqn:E; simpl.
  - exists added; auto.
  - exists (added ++ [result]). rewrite app_assoc. split; [reflexivity|].
    intros f g Hf Hg. apply in_app_or in Hf as [Hf|[<-|[]]]; [auto|].
    rewrite similar_sym.
    destruct (similar result g) eqn:Es; [|reflexivity].
    assert (existsb (similar result) (pre ++ added) = true)
      by (apply existsb_exists; exists g; split;
          [apply in_or_app; left; exact Hg|exact Es]).
    congruence.
Qed.

Lemma applyRules_Extends lines pre : Extends pre (applyRules lines pre).
Proof.
  unfold applyRules, forEach.
  apply (forEachFrom_invariant (Extends pre)); [|apply Extends_refl].
  intros st ln i Hst.
  apply (fold_left_invariant (Extends pre)); [|exact Hst].
  intros st' r Hst'. unfold applyRule.
  destruct (check r ln (i + 1)); [apply pushUnlessSimilar_Extends|];
    exact Hst'.
Qed.

(** C4. When the findings of the rule catalogue are merged, a finding is
    left out exactly when the sequence already holds a finding of the same
    rule at most two lines away, and is appended otherwise.  So the catalogue
    pass only appends to the findings of the function pass, and the findings
    similar to one of the function pass are, after the merge, those that were
    there before: a reentrancy reported by the analyzer and found again by
    the line rule within two lines is reported once (three lines away, it is
    reported twice). *)
Theorem merge_suppresses_similar :
  (forall results result,
      (pushUnlessSimilar results result = results
       <-> exists r, In r results /\ rule r = rule result
                     /\ (Z.abs (line r - line result) <= 2)%Z)
      /\ (~ (exists r, In r results /\ rule r = rule result
                       /\ (Z.abs (line r - line result) <= 2)%Z) ->
          pushUnlessSimilar results result = results ++ [result]))
  /\ (forall lines pre,
         exists added,
           applyRules lines pre = pre ++ added
           /\ forall f g, In f added -> In g pre ->
                          ~ (rule f = rule g
                             /\ (Z.abs (line f - line g) <= 2)%Z))
  /\ (forall lines pre g,
         In g pre ->
         filter (similar g) (applyRules lines pre) = filter (similar g) pre)
  /\ (check reentrancyRule updateAndTransfer 4 <> None
      /\ withRule "reentrancy" (analyzeContractSimple twoLinesApart)
         = [reentrancyFinding 1]
      /\ withRule "reentrancy" (analyzeContract NoUser (JsString twoLinesApart))
         = [reentrancyFinding 1])
  /\ List.length
       (withRule "reentrancy"
          (analyzeContract NoUser (JsString threeLinesApart))) = 2%nat.
Proof.
  split; [|split; [|split; [|split]]].
  - intros results result.
    change (exists r, In r results /\ rule r = rule result
                      /\ (Z.abs (line r - line result) <= 2)%Z)
      with (exists r, In r results /\ Similar r result).
    rewrite <- existsb_similar. unfold pushUnlessSimilar, push.
    destruct (existsb (similar result) results); simpl; split.
    + tauto.
    + intros H; exfalso; apply H; reflexivity.
    + split; [|discriminate]. intros H.
      apply (f_equal (@List.length _)) in H.
      rewrite length_app in H. simpl in H. lia.
    + reflexivity.
  - intros lines pre.
    destruct (applyRules_Extends lines pre) as (added & E & H).
    exists added. split; [exact E|].
    intros f g Hf Hg Hs. specialize (H f g Hf Hg).
    assert (similar g f = true) by (apply similar_spec; exact Hs).
    congruence.
  - intros lines pre g Hg.
    destruct (applyRules_Extends lines pre) as (added & -> & H).
    rewrite filter_app.
    assert (E : filter (similar g) added = []).
    { clear - H Hg. induction added as [|f added IH]; [reflexivity|].
      simpl. rewrite (H f g (or_introl eq_refl) Hg).
      apply IH. intros f' g' Hf'. apply H. right; exact Hf'. }
    rewrite E, app_nil_r. reflexivity.
  - repeat split; vm_compute; [discriminate|reflexivity..].
  - vm_compute; reflexivity.
Qed.

(** ** The preamble when no function follows *)

Lemma Grows_refl l : Grows l l.
Proof. exists []; rewrite app_nil_r; reflexivity. Qed.

Lemma Grows_trans l1 l2 l3 : Grows l1 l2 -> Grows l2 l3 -> Grows l1 l3.
Proof.
  intros (m1 & ->) (m2 & ->). exists (m1 ++ m2). rewrite app_assoc.
  reflexivity.
Qed.

Lemma Grows_In l l' x : Grows l l' -> In x l -> In x l'.
Proof. intros (m & ->) H. apply in_or_app; left; exact H. Qed.

Lemma forEachFrom_grows {A S : Type} (proj : S -> list SmartCheckResult)
    (f : S -> A -> Z -> S) (l : list A) :
  (forall st x i, Grows (proj st) (proj (f st x i))) ->
  forall i st, Grows (proj st) (proj (forEachFrom f l i st)).
Proof.
  intros Hf. induction l as [|x t IH]; intros i st; simpl.
  - apply Grows_refl.
  - eapply Grows_trans; [apply Hf|apply IH].
Qed.

Lemma checkStateVariable_grows contractLine rs ln index :
  Grows rs (checkStateVariable contractLine rs ln index).
Proof.
  unfold checkStateVariable, push.
  destruct (_ && _); [eexists; reflexivity|apply Grows_refl].
Qed.

Lemma scanLine_grows st ln i : Grows (results st) (results (scanLine st ln i)).
Proof.
  unfold scanLine. destruct (startsWith (js "function") ln); simpl.
  - destruct (currentFunction st); [|apply Grows_refl].
    rewrite analyzeFunction_emits. eexists; reflexivity.
  - destruct (currentFunction st); apply Grows_refl.
Qed.

Lemma preamble_In contractLine (vars : list jsstring) :
  forall (i : Z) rs (j : nat) ln,
    nth_error vars j = Some ln ->
    publicStateVariable ln = true ->
    In (stateVisibilityFinding contractLine (i + Z.of_nat j))
       (forEachFrom (checkStateVariable contractLine) vars i rs).
Proof.
  induction vars as [|v vars IH]; intros i rs j ln Hnth Hpub.
  - destruct j; discriminate.
  - destruct j as [|j]; simpl in Hnth.
    + injection Hnth as ->. simpl forEachFrom.
      apply (Grows_In (checkStateVariable contractLine rs ln i)).
      * apply (forEachFrom_grows (fun rs => rs)).
        intros; apply checkStateVariable_grows.
      * unfold checkStateVariable, push.
        unfold publicStateVariable in Hpub. rewrite Hpub.
        apply in_or_app; right. replace (i + Z.of_nat 0)%Z with i by lia.
        left; reflexivity.
    + simpl forEachFrom.
      replace (i + Z.of_nat (S j))%Z with (i + 1 + Z.of_nat j)%Z by lia.
      apply (IH _ _ _ ln); assumption.
Qed.

Lemma functionPass_grows lines contractLine :
  Grows (forEach (checkStateVariable contractLine)
           (slice lines (contractLine + 1)
              (findIndex
                 (fun ln index =>
                    (index >? contractLine)%Z && startsWith (js "function") ln)
                 lines)) [])
        (functionPass lines contractLine).
Proof.
  unfold functionPass.
  set (pre := forEach _ (slice _ _ _) []).
  set (st0 := {| currentFunction := None; functionStartLine := 0%Z;
                 results := pre |}).
  assert (H : Grows pre (results (forEach scanLine lines st0))).
  { change pre with (results st0). unfold forEach.
    apply (forEachFrom_grows results). intros; apply scanLine_grows. }
  destruct (currentFunction (forEach scanLine lines st0)); [|exact H].
  rewrite analyzeFunction_emits. eapply Grows_trans; [exact H|].
  eexists; reflexivity.
Qed.

(** Every line of the slice taken as the preamble that declares a public
    state variable is reported, at its line, in the findings of the
    scanner. *)
Lemma preamble_reported (code : jsstring) (j : nat) (ln : jsstring) :
  let lines := map trim (split_nl code) in
  let contractLine :=
    findIndex (fun ln _ => startsWith (js "contract") ln) lines in
  let firstFunctionLine :=
    findIndex
      (fun ln index =>
         (index >? contractLine)%Z && startsWith (js "function") ln)
      lines in
  contractLine <> (-1)%Z ->
  nth_error (slice lines (contractLine + 1) firstFunctionLine) j = Some ln ->
  publicStateVariable ln = true ->
  In (stateVisibilityFinding contractLine (Z.of_nat j))
     (analyzeContractSimple code).
Proof.
  intros lines contractLine firstFunctionLine Hc Hnth Hpub.
  unfold analyzeContractSimple. fold lines. fold contractLine.
  destruct (Z.eqb_spec contractLine (-1)) as [E|_]; [contradiction|].
  destruct (applyRules_Extends lines (functionPass lines contractLine))
    as (added & -> & _).
  apply in_or_app; left.
  apply (Grows_In _ _ _ (functionPass_grows lines contractLine)).
  unfold forEach.
  exact (preamble_In contractLine _ 0%Z [] j ln Hnth Hpub).
Qed.

Lemma slice_between {A : Type} (l : list A) (a b : Z) :
  (0 <= a <= b)%Z -> (b <= Z.of_nat (List.length l))%Z ->
  slice l a b = firstn (Z.to_nat (b - a)) (skipn (Z.to_nat a) l).
Proof.
  intros Hab Hb. unfold slice.
  destruct (Z.ltb_spec a 0); [lia|]. destruct (Z.ltb_spec b 0); [lia|].
  rewrite !Z.min_l by lia. reflexivity.
Qed.

Lemma slice_to_minus_one {A : Type} (l : list A) (k : Z) :
  (0 <= k)%Z -> slice l k (-1) = removelast (skipn (Z.to_nat k) l).
Proof.
  intros Hk. unfold slice.
  destruct (Z.ltb_spec k 0) as [Hneg|_]; [lia|].
  change (-1 <? 0)%Z with true. cbv iota.
  rewrite removelast_firstn_len, length_skipn.
  destruct (Z.le_gt_cases (Z.of_nat (List.length l)) k) as [Hbig|Hsmall].
  - rewrite !skipn_all2 by lia. rewrite !firstn_nil. reflexivity.
  - rewrite Z.min_l by lia. f_equal. lia.
Qed.

(** Where the slice taken as the preamble starts and stops. *)
Lemma preamble_slice (lines : list jsstring) :
  let contractLine :=
    findIndex (fun ln _ => startsWith (js "contract") ln) lines in
  let firstFunctionLine :=
    findIndex
      (fun ln index =>
         (index >? contractLine)%Z && startsWith (js "function") ln)
      lines in
  contractLine <> (-1)%Z ->
  (firstFunctionLine <> (-1)%Z ->
   slice lines (contractLine + 1) firstFunctionLine
   = firstn (Z.to_nat (firstFunctionLine - contractLine - 1))
       (skipn (Z.to_nat (contractLine + 1)) lines))
  /\ (firstFunctionLine = (-1)%Z ->
      slice lines (contractLine + 1) firstFunctionLine
      = removelast (skipn (Z.to_nat (contractLine + 1)) lines)).
Proof.
  intros contractLine firstFunctionLine Hc.
  assert (H0 : (0 <= contractLine)%Z).
  { destruct (findIndexFrom_bounds
                (fun ln (_ : Z) => startsWith (js "contract") ln) lines 0%Z
                ltac:(lia)) as [H|H]; [contradiction|].
    unfold contractLine, findIndex. lia. }
  split.
  - intros Hf.
    destruct (findIndexFrom_found _ lines 0%Z ltac:(lia) Hf) as (x & _ & Hx).
    fold (findIndex
            (fun ln index =>
               (index >? contractLine)%Z && startsWith (js "function") ln)
            lines) in Hx.
    fold firstFunctionLine in Hx.
    apply andb_true_iff in Hx as [Hgt _]. apply Z.gtb_gt in Hgt.
    destruct (findIndexFrom_bounds
                (fun ln index =>
                   (index >? contractLine)%Z && startsWith (js "function") ln)
                lines 0%Z ltac:(lia)) as [H|H]; [contradiction|].
    fold (findIndex
            (fun ln index =>
               (index >? contractLine)%Z && startsWith (js "function") ln)
            lines) in H.
    fold firstFunctionLine in H.
    rewrite slice_between by lia. f_equal. lia.
  - intros ->. apply slice_to_minus_one. lia.
Qed.

(** C5 on the code.  Every line of the slice taken as the preamble that
    contains [public] and neither [constant] nor [immutable] is reported as
    a low-severity state-visibility finding at contract line + offset + 2,
    and with a function line after the contract line that slice is the lines
    strictly between the two.  Without a function line [findIndex] answers
    [-1] and [slice] then stops before the last line: the slice is the lines
    after the contract line without the last line of the input.  A public
    state variable declared on the last line is therefore not reported and
    the result is the sentinel, while the same declaration followed by a
    line of its own for the closing brace is reported at its line. *)
Theorem preamble_skips_last_line :
  (forall (code : jsstring) (j : nat) (ln : jsstring),
      let lines := map trim (split_nl code) in
      let contractLine :=
        findIndex (fun ln _ => startsWith (js "contract") ln) lines in
      let firstFunctionLine :=
        findIndex
          (fun ln index =>
             (index >? contractLine)%Z && startsWith (js "function") ln)
          lines in
      contractLine <> (-1)%Z ->
      nth_error (slice lines (contractLine + 1) firstFunctionLine) j = Some ln ->
      publicStateVariable ln = true ->
      In (stateVisibilityFinding contractLine (Z.of_nat j))
         (analyzeContractSimple code)
      /\ severity (stateVisibilityFinding contractLine (Z.of_nat j)) = Low
      /\ line (stateVisibilityFinding contractLine (Z.of_nat j))
         = (contractLine + Z.of_nat j + 2)%Z)
  /\ (forall (code : jsstring),
         let lines := map trim (split_nl code) in
         let contractLine :=
           findIndex (fun ln _ => startsWith (js "contract") ln) lines in
         let firstFunctionLine :=
           findIndex
             (fun ln index =>
                (index >? contractLine)%Z && startsWith (js "function") ln)
             lines in
         contractLine <> (-1)%Z ->
         (firstFunctionLine <> (-1)%Z ->
          slice lines (contractLine + 1) firstFunctionLine
          = firstn (Z.to_nat (firstFunctionLine - contractLine - 1))
              (skipn (Z.to_nat (contractLine + 1)) lines))
         /\ (firstFunctionLine = (-1)%Z ->
             slice lines (contractLine + 1) firstFunctionLine
             = removelast (skipn (Z.to_nat (contractLine + 1)) lines)))
  /\ slice (map trim (split_nl variableOnLastLine)) 1 (-1) = []
  /\ analyzeContractSimple variableOnLastLine = []
  /\ analyzeContract NoUser (JsString variableOnLastLine) = [analysisComplete]
  /\ publicStateVariable (js "uint public value; }") = true
  /\ analyzeContract NoUser (JsString variableThenBrace)
     = [stateVisibilityFinding 0 0]
  /\ line (stateVisibilityFinding 0 0) = 2%Z.
Proof.
  split; [|split].
  - intros code j ln lines contractLine firstFunctionLine Hc Hnth Hpub.
    split; [exact (preamble_reported code j ln Hc Hnth Hpub)|].
    split; reflexivity.
  - intros code lines. exact (preamble_slice lines).
  - repeat split; vm_compute; reflexivity.
Qed.

(** * Further properties of the analysis service *)

(** ** What the findings do not depend on *)

Lemma normalize_one_pass (x : jsstring) :
  preprocessSolidityCode x = trim (normalizeLineEndingsAndTabs x).
Proof. unfold preprocessSolidityCode. rewrite replacements_one_pass. reflexivity. Qed.

Lemma normalize_nonempty (x : jsstring) :
  x <> [] -> normalizeLineEndingsAndTabs x <> [].
Proof.
  destruct x as [|c t]; [contradiction|]. intros _. rewrite normalize_cons.
  destruct (N.eqb c CR).
  - destruct t as [|d t']; [discriminate|]. destruct (N.eqb d LF); discriminate.
  - destruct (N.eqb c TAB); discriminate.
Qed.

Lemma normalize_clean (x : jsstring) :
  Forall (fun c => c <> CR /\ c <> TAB) (normalizeLineEndingsAndTabs x).
Proof.
  rewrite <- replacements_one_pass. apply Forall_replaceAllChar.
  - repeat constructor; discriminate.
  - intros c Hc Hin. split; [|exact Hc]. clear Hc. revert c Hin.
    apply Forall_forall. apply Forall_replaceAllChar.
    + repeat constructor; discriminate.
    + intros c Hc _; exact Hc.
Qed.

Lemma normalize_fixed (s : jsstring) :
  Forall (fun c => c <> CR /\ c <> TAB) s -> normalizeLineEndingsAndTabs s = s.
Proof.
  induction 1 as [|c t [Hc Ht] _ IH]; [reflexivity|].
  rewrite normalize_cons.
  destruct (N.eqb_spec c CR); [contradiction|].
  destruct (N.eqb_spec c TAB); [contradiction|].
  rewrite IH; reflexivity.
Qed.

Lemma normalize_whitespace (w : jsstring) :
  Forall (fun c => isWhiteSpace c = true) w ->
  Forall (fun c => isWhiteSpace c = true) (normalizeLineEndingsAndTabs w).
Proof.
  intros H. rewrite <- replacements_one_pass.
  apply Forall_replaceAllChar; [repeat constructor|].
  intros c _ Hin; revert c Hin; apply Forall_forall.
  apply Forall_replaceAllChar; [repeat constructor|].
  intros c _ Hin; revert c Hin; apply Forall_forall.
  apply Forall_replace_crlf; [reflexivity|exact H].
Qed.

Lemma trim_whitespace_cons (c : code_unit) (z : jsstring) :
  isWhiteSpace c = true -> trim (c :: z) = trim z.
Proof. intros H. unfold trim, trimStart. simpl. rewrite H. reflexivity. Qed.

Lemma trim_whitespace_prefix (w z : jsstring) :
  Forall (fun c => isWhiteSpace c = true) w -> trim (w ++ z) = trim z.
Proof.
  induction 1 as [|c t Hc _ IH]; [reflexivity|].
  simpl app. rewrite (trim_whitespace_cons c _ Hc). exact IH.
Qed.

Lemma trimEnd_whitespace (w : jsstring) :
  Forall (fun c => isWhiteSpace c = true) w -> trimEnd w = [].
Proof.
  induction 1 as [|c t Hc _ IH]; [reflexivity|]. simpl. rewrite IH, Hc.
  reflexivity.
Qed.

Lemma trimEnd_whitespace_suffix (a w : jsstring) :
  Forall (fun c => isWhiteSpace c = true) w -> trimEnd (a ++ w) = trimEnd a.
Proof.
  intros Hw. induction a as [|c a IH]; simpl.
  - apply trimEnd_whitespace; exact Hw.
  - rewrite IH. reflexivity.
Qed.

Lemma dropWhile_whitespace_suffix (z w : jsstring) :
  Forall (fun c => isWhiteSpace c = true) w ->
  dropWhile isWhiteSpace (z ++ w) = []
  \/ dropWhile isWhiteSpace (z ++ w) = dropWhile isWhiteSpace z ++ w.
Proof.
  intros Hw. induction z as [|c z IH]; simpl.
  - left. apply dropWhile_all; exact Hw.
  - destruct (isWhiteSpace c); [exact IH|right; reflexivity].
Qed.

Lemma dropWhile_app_nil (p : code_unit -> bool) (z w : jsstring) :
  dropWhile p (z ++ w) = [] -> dropWhile p z = [].
Proof.
  induction z as [|c z IH]; simpl; [reflexivity|].
  destruct (p c); [exact IH|discriminate].
Qed.

Lemma trim_whitespace_suffix (z w : jsstring) :
  Forall (fun c => isWhiteSpace c = true) w -> trim (z ++ w) = trim z.
Proof.
  intros Hw. unfold trim, trimStart.
  destruct (dropWhile_whitespace_suffix z w Hw) as [E|E].
  - rewrite E, (dropWhile_app_nil _ _ _ E). reflexivity.
  - rewrite E. apply trimEnd_whitespace_suffix; exact Hw.
Qed.

Lemma preprocess_whitespace_cons (c : code_unit) (t : jsstring) :
  isWhiteSpace c = true ->
  preprocessSolidityCode (c :: t) = preprocessSolidityCode t.
Proof.
  intros Hc. rewrite !normalize_one_pass, normalize_cons.
  destruct (N.eqb_spec c CR) as [->|HCR].
  - destruct t as [|d t']; [reflexivity|].
    destruct (N.eqb_spec d LF) as [->|Hd].
    + rewrite (normalize_cons LF t'). reflexivity.
    + apply trim_whitespace_cons. reflexivity.
  - destruct (N.eqb_spec c TAB) as [->|HTAB].
    + apply trim_whitespace_prefix. repeat constructor.
    + apply trim_whitespace_cons. exact Hc.
Qed.

Lemma preprocess_whitespace_prefix (w s : jsstring) :
  Forall (fun c => isWhiteSpace c = true) w ->
  preprocessSolidityCode (w ++ s) = preprocessSolidityCode s.
Proof.
  induction 1 as [|c t Hc _ IH]; [reflexivity|].
  simpl app. rewrite (preprocess_whitespace_cons c _ Hc). exact IH.
Qed.

Lemma normalize_whitespace_suffix (w : jsstring) :
  Forall (fun c => isWhiteSpace c = true) w ->
  forall s, exists w',
    Forall (fun c => isWhiteSpace c = true) w'
    /\ normalizeLineEndingsAndTabs (s ++ w)
       = normalizeLineEndingsAndTabs s ++ w'.
Proof.
  intros Hw.
  assert (H : forall n s, (List.length s <= n)%nat ->
                exists w',
                  Forall (fun c => isWhiteSpace c = true) w'
                  /\ normalizeLineEndingsAndTabs (s ++ w)
                     = normalizeLineEndingsAndTabs s ++ w').
  { induction n as [|n IH]; intros [|c t] Hlen; simpl in Hlen; try lia;
      try (exists (normalizeLineEndingsAndTabs w); split;
           [apply normalize_whitespace; exact Hw|reflexivity]).
    cbn [app]. rewrite !normalize_cons.
    destruct (N.eqb c CR).
    - destruct t as [|d t'].
      + cbn [app]. destruct w as [|x w0].
        * exists []; split; [constructor|reflexivity].
        * inversion Hw; subst.
          destruct (IH [] ltac:(simpl; lia)) as (w1 & Hw1 & E1).
          simpl in E1.
          destruct (N.eqb x LF).
          -- exists (normalizeLineEndingsAndTabs w0). split.
             ++ apply normalize_whitespace; assumption.
             ++ reflexivity.
          -- exists (normalizeLineEndingsAndTabs (x :: w0)). split.
             ++ apply normalize_whitespace; constructor; assumption.
             ++ reflexivity.
      + cbn [app]. destruct (N.eqb d LF).
        * destruct (IH t' ltac:(simpl in Hlen; lia)) as (w1 & Hw1 & E1).
          exists w1. split; [exact Hw1|]. rewrite E1. reflexivity.
        * destruct (IH (d :: t') ltac:(simpl in *; lia)) as (w1 & Hw1 & E1).
          exists w1. split; [exact Hw1|]. cbn [app] in E1. rewrite E1.
          reflexivity.
    - destruct (IH t ltac:(lia)) as (w1 & Hw1 & E1). exists w1.
      split; [exact Hw1|]. rewrite E1.
      destruct (N.eqb c TAB); [rewrite app_assoc|]; reflexivity. }
  intros s. exact (H _ s (le_n _)).
Qed.

Lemma preprocess_whitespace_suffix (s w : jsstring) :
  Forall (fun c => isWhiteSpace c = true) w ->
  preprocessSolidityCode (s ++ w) = preprocessSolidityCode s.
Proof.
  intros Hw. rewrite !normalize_one_pass.
  destruct (normalize_whitespace_suffix w Hw s) as (w' & Hw' & ->).
  apply trim_whitespace_suffix; exact Hw'.
Qed.

Lemma analyzeContract_preprocess (sb : Supabase) (x y : jsstring) :
  x <> [] -> y <> [] ->
  preprocessSolidityCode x = preprocessSolidityCode y ->
  analyzeContract sb (JsString x) = analyzeContract sb (JsString y).
Proof.
  intros Hx Hy E. destruct x as [|a x]; [contradiction|].
  destruct y as [|b y]; [contradiction|].
  unfold analyzeContract. rewrite E. reflexivity.
Qed.

(** X1. The findings do not depend on how lines end or on tabs: two
    sources that agree once every carriage return, alone or before a line
    feed, is read as a line feed and every tab as four spaces get the same
    result, and so does a source and that normal form of it. *)
Theorem line_endings_and_tabs_ignored (sb : Supabase) (x y : jsstring) :
  (normalizeLineEndingsAndTabs x = normalizeLineEndingsAndTabs y ->
   analyzeContract sb (JsString x) = analyzeContract sb (JsString y))
  /\ analyzeContract sb (JsString (normalizeLineEndingsAndTabs x))
     = analyzeContract sb (JsString x).
Proof.
  assert (H : forall a b,
             normalizeLineEndingsAndTabs a = normalizeLineEndingsAndTabs b ->
             analyzeContract sb (JsString a) = analyzeContract sb (JsString b)).
  { intros a b E. destruct a as [|c a], b as [|d b]; [reflexivity|..].
    - exfalso. apply (normalize_nonempty (d :: b)); [discriminate|].
      rewrite <- E. reflexivity.
    - exfalso. apply (normalize_nonempty (c :: a)); [discriminate|].
      rewrite E. reflexivity.
    - apply analyzeContract_preprocess; try discriminate.
      rewrite !normalize_one_pass, E. reflexivity. }
  split; [apply H|]. apply H. apply normalize_fixed, normalize_clean.
Qed.

(** X2. Whitespace around the source is ignored, whatever its kind: the
    preprocessor gives the same text, and for a non-empty source the entry
    point the same findings, with the same line numbers.  Lines are thus
    numbered from the first line that is not blank, not from the first line
    of the input. *)
Theorem surrounding_whitespace_ignored (sb : Supabase) (w1 s w2 : jsstring) :
  Forall (fun c => isWhiteSpace c = true) w1 ->
  Forall (fun c => isWhiteSpace c = true) w2 ->
  preprocessSolidityCode (w1 ++ s ++ w2) = preprocessSolidityCode s
  /\ (s <> [] ->
      analyzeContract sb (JsString (w1 ++ s ++ w2))
      = analyzeContract sb (JsString s)).
Proof.
  intros H1 H2.
  assert (E : preprocessSolidityCode (w1 ++ s ++ w2) = preprocessSolidityCode s).
  { rewrite (preprocess_whitespace_prefix _ _ H1).
    apply preprocess_whitespace_suffix; exact H2. }
  split; [exact E|]. intros Hs.
  apply analyzeContract_preprocess; [|exact Hs|exact E].
  destruct s; [contradiction|]. destruct w1; discriminate.
Qed.

(** Two blank lines before a contract, and a tab and a line end after it:
    the public state variable on the fourth line of the input is reported
    at line 2. *)
Lemma surrounding_whitespace_ignored_witness :
  let s := join_nl [js "contract Test {"; js "uint public value;"; js "}"] in
  analyzeContract NoUser (JsString ([LF; LF] ++ s ++ [TAB; CR; LF]))
  = analyzeContract NoUser (JsString s)
  /\ map line (analyzeContract NoUser (JsString s)) = [2%Z].
Proof.
  intros s. split.
  - refine (proj2 (surrounding_whitespace_ignored NoUser [LF; LF] s
                     [TAB; CR; LF] _ _) _).
    + repeat constructor.
    + repeat constructor.
    + vm_compute; discriminate.
  - vm_compute; reflexivity.
Defined.

(** ** The functions of a source *)

Lemma split_nl_singleLine (a : jsstring) : singleLine a -> split_nl a = [a].
Proof.
  induction 1 as [|c t Hc _ IH]; [reflexivity|]. simpl.
  destruct (N.eqb_spec c LF); [contradiction|]. rewrite IH. reflexivity.
Qed.

Lemma split_nl_app (a b : jsstring) :
  singleLine a -> split_nl (a ++ LF :: b) = a :: split_nl b.
Proof.
  induction 1 as [|c t Hc _ IH]; [reflexivity|]. simpl.
  destruct (N.eqb_spec c LF); [contradiction|]. rewrite IH. reflexivity.
Qed.

Lemma split_nl_lines (s : jsstring) : Forall singleLine (split_nl s).
Proof.
  induction s as [|c t IH]; simpl; [repeat constructor|].
  destruct (N.eqb_spec c LF) as [->|Hc].
  - constructor; [constructor|exact IH].
  - destruct (split_nl t) as [|l ls]; [repeat constructor; exact Hc|].
    inversion IH; subst. constructor; [constructor; assumption|assumption].
Qed.

Lemma trimmed_lines (s : jsstring) : Forall singleLine (map trim (split_nl s)).
Proof.
  apply Forall_map. eapply Forall_impl; [|apply split_nl_lines].
  intros l Hl. apply Forall_trim. exact Hl.
Qed.

Lemma split_nl_join (ls : list jsstring) :
  ls <> [] -> Forall singleLine ls -> split_nl (join_nl ls) = ls.
Proof.
  induction ls as [|l ls IH]; [contradiction|]. intros _ H.
  inversion H as [|? ? Hl Hls]; subst.
  destruct ls as [|l' ls'].
  - simpl. apply split_nl_singleLine; exact Hl.
  - change (join_nl (l :: l' :: ls')) with (l ++ LF :: join_nl (l' :: ls')).
    rewrite (split_nl_app _ _ Hl), IH; [reflexivity|discriminate|exact Hls].
Qed.

Lemma code_appendLines (body : list jsstring) (f : FunctionRecord) :
  code (fold_left appendLine body f)
  = join_nl (code f :: body).
Proof.
  revert f. induction body as [|l body IH]; intros f; [reflexivity|].
  simpl fold_left. rewrite IH.
  change (code (appendLine f l)) with (code f ++ LF :: l).
  change (join_nl (code f :: l :: body))
    with (code f ++ LF :: join_nl (l :: body)).
  destruct body as [|l' body'].
  - reflexivity.
  - change (join_nl ((code f ++ LF :: l) :: l' :: body'))
      with ((code f ++ LF :: l) ++ LF :: join_nl (l' :: body')).
    change (join_nl (l :: l' :: body'))
      with (l ++ LF :: join_nl (l' :: body')).
    rewrite <- app_assoc. reflexivity.
Qed.

Lemma Forall_bodyLines (P : jsstring -> Prop) (lines : list jsstring) :
  Forall P lines -> Forall P (bodyLines lines).
Proof.
  induction 1 as [|l t Hl _ IH]; simpl; [constructor|].
  destruct (startsWith (js "function") l); constructor; assumption.
Qed.

Lemma scan_functionRecords (lines : list jsstring) :
  forall (i : Z) (st : ScanState),
    analyzeLast (forEachFrom scanLine lines i st)
    = match currentFunction st with
      | Some f =>
          results st
          ++ analyzeFunction (fold_left appendLine (bodyLines lines) f)
               (functionStartLine st) []
          ++ flat_map analyzeRecord (functionRecords lines i)
      | None => results st ++ flat_map analyzeRecord (functionRecords lines i)
      end.
Proof.
  induction lines as [|l t IH]; intros i st.
  - simpl. unfold analyzeLast. destruct (currentFunction st).
    + rewrite app_nil_r. apply analyzeFunction_appends.
    + rewrite app_nil_r. reflexivity.
  - simpl forEachFrom. rewrite IH. unfold scanLine. simpl bodyLines.
    simpl functionRecords.
    destruct (startsWith (js "function") l); simpl.
    + unfold analyzeRecord at 2. simpl fst. simpl snd.
      destruct (currentFunction st).
      * rewrite (analyzeFunction_appends f). rewrite <- app_assoc.
        reflexivity.
      * reflexivity.
    + destruct (currentFunction st) eqn:Ec; simpl; [reflexivity|].
      rewrite Ec. reflexivity.
Qed.

Lemma functionRecords_In (lines : list jsstring) :
  forall (i0 : Z) (f : FunctionRecord) (i : Z),
    In (f, i) (functionRecords lines i0) <->
    exists before signature after,
      lines = before ++ signature :: after
      /\ i = (i0 + Z.of_nat (List.length before))%Z
      /\ startsWith (js "function") signature = true
      /\ f = fold_left appendLine (bodyLines after) (openFunction signature).
Proof.
  induction lines as [|l t IH]; intros i0 f i.
  - simpl. split; [intros []|].
    intros (before & sg & after & E & _). destruct before; discriminate.
  - simpl functionRecords. split.
    + intros H.
      assert (Ht : In (f, i) (functionRecords t (i0 + 1)) ->
                   exists before signature after,
                     l :: t = before ++ signature :: after
                     /\ i = (i0 + Z.of_nat (List.length before))%Z
                     /\ startsWith (js "function") signature = true
                     /\ f = fold_left appendLine (bodyLines after)
                              (openFunction signature)).
      { intros Hin. apply IH in Hin as (b & sg & a & -> & -> & Hs & Hf).
        exists (l :: b), sg, a. repeat split; try assumption.
        simpl List.length. lia. }
      destruct (startsWith (js "function") l) eqn:El; [|exact (Ht H)].
      destruct H as [H|H]; [|exact (Ht H)].
      injection H as <- <-. exists [], l, t. repeat split; try assumption.
      simpl. lia.
    + intros (before & sg & after & E & -> & Hs & ->).
      destruct before as [|b before]; simpl in E; injection E as -> ->.
      * rewrite Hs. left. f_equal. simpl. lia.
      * assert (Hin : In (fold_left appendLine (bodyLines after)
                            (openFunction sg),
                          (i0 + 1 + Z.of_nat (List.length before))%Z)
                         (functionRecords (before ++ sg :: after) (i0 + 1))).
        { apply IH. exists before, sg, after. repeat split; assumption. }
        replace (i0 + Z.of_nat (List.length (b :: before)))%Z
          with (i0 + 1 + Z.of_nat (List.length before))%Z
          by (simpl List.length; lia).
        destruct (startsWith (js "function") b); [right|]; exact Hin.
Qed.

(** X3. Function boundaries are the lines that start with the function
    keyword and nothing else: the findings of the function pass are those of
    the preamble followed, in source order, by what the analyzer reports for
    each such line, taken with the lines up to the next one (or the end of
    the input) as its body and with the index of the line as start line.
    Lines before the first such line belong to no function, and the analyzer
    sees the text of a record as the signature line followed by its body
    lines, one per line. *)
Theorem function_boundaries (src : jsstring) (contractLine : Z) :
  let lines := map trim (split_nl src) in
  functionPass lines contractLine
  = forEach (checkStateVariable contractLine)
      (slice lines (contractLine + 1)
         (findIndex
            (fun ln index =>
               (index >? contractLine)%Z && startsWith (js "function") ln)
            lines)) []
    ++ flat_map analyzeRecord (functionRecords lines 0)
  /\ (forall f i,
         In (f, i) (functionRecords lines 0) <->
         exists before signature after,
           lines = before ++ signature :: after
           /\ i = Z.of_nat (List.length before)
           /\ startsWith (js "function") signature = true
           /\ f = fold_left appendLine (bodyLines after)
                    (openFunction signature))
  /\ (forall before signature after,
         lines = before ++ signature :: after ->
         split_nl (code
                     (fold_left appendLine (bodyLines after)
                        (openFunction signature)))
         = signature :: bodyLines after).
Proof.
  intros lines. split; [|split].
  - unfold functionPass.
    set (pre := forEach _ (slice _ _ _) []).
    change (match currentFunction (forEach scanLine lines ?s) with
            | Some f => analyzeFunction f (functionStartLine _) (results _)
            | None => results _
            end) with (analyzeLast (forEach scanLine lines s)).
    unfold forEach at 1. rewrite scan_functionRecords. reflexivity.
  - intros f i. rewrite functionRecords_In. reflexivity.
  - intros before sg after E.
    pose proof (trimmed_lines src) as HL. fold lines in HL. rewrite E in HL.
    apply Forall_app in HL as [_ HL]. inversion HL; subst.
    rewrite code_appendLines. apply split_nl_join; [discriminate|].
    constructor; [assumption|]. apply Forall_bodyLines; assumption.
Qed.

(** ** The record of a function *)

Lemma appendLines_fields (body : list jsstring) (f : FunctionRecord) :
  isPayable (fold_left appendLine body f) = isPayable f
  /\ visibility (fold_left appendLine body f) = visibility f
  /\ hasModifier (fold_left appendLine body f) = hasModifier f
  /\ modifiers (fold_left appendLine body f) = modifiers f
  /\ hasExternalCall (fold_left appendLine body f)
     = hasExternalCall f || existsb externalCallPattern body
  /\ hasStateChange (fold_left appendLine body f)
     = hasStateChange f || existsb stateChangePattern body.
Proof.
  revert f. induction body as [|l body IH]; intros f; simpl.
  - rewrite !orb_false_r. repeat split.
  - destruct (IH (appendLine f l)) as (H1 & H2 & H3 & H4 & H5 & H6).
    rewrite H1, H2, H3, H4, H5, H6. simpl.
    repeat split.
    + destruct (externalCallPattern l), (hasExternalCall f); reflexivity.
    + destruct (stateChangePattern l), (hasStateChange f); reflexivity.
Qed.

(** X4. What the scan records of a function.  Payability and visibility
    come from the signature line alone: the function is payable exactly when
    that line contains [payable], and its visibility is the first of public,
    private, internal, external that the line contains anywhere, tried in
    that order.  The two flags come from the body lines alone: a call or an
    assignment written on the signature line itself sets neither. *)
Theorem record_of_function (signature : jsstring) (body : list jsstring) :
  let f := fold_left appendLine body (openFunction signature) in
  (isPayable f = true <-> Contains (js "payable") signature)
  /\ (visibility f = Some Public <-> Contains (js "public") signature)
  /\ (visibility f = Some Private <->
      ~ Contains (js "public") signature
      /\ Contains (js "private") signature)
  /\ (visibility f = Some Internal <->
      ~ Contains (js "public") signature
      /\ ~ Contains (js "private") signature
      /\ Contains (js "internal") signature)
  /\ (visibility f = Some External <->
      ~ Contains (js "public") signature
      /\ ~ Contains (js "private") signature
      /\ ~ Contains (js "internal") signature
      /\ Contains (js "external") signature)
  /\ (hasExternalCall f = true <-> exists ln, In ln body /\ ExternalCall ln)
  /\ (hasStateChange f = true <-> exists ln, In ln body /\ StateChange ln).
Proof.
  intros f.
  destruct (appendLines_fields body (openFunction signature))
    as (H1 & H2 & _ & _ & H5 & H6).
  fold f in H1, H2, H5, H6. rewrite H1, H2, H5, H6.
  rewrite <- !includes_spec. unfold openFunction. simpl.
  rewrite !existsb_exists.
  repeat split;
    try (destruct (includes (js "public") signature),
           (includes (js "private") signature),
           (includes (js "internal") signature),
           (includes (js "external") signature);
         intuition congruence).
  - intros (ln & Hin & H). exists ln. split; [exact Hin|].
    apply externalCallPattern_spec; exact H.
  - intros (ln & Hin & H). exists ln. split; [exact Hin|].
    apply externalCallPattern_spec; exact H.
  - intros (ln & Hin & H). exists ln. split; [exact Hin|].
    apply stateChangePattern_spec; exact H.
  - intros (ln & Hin & H). exists ln. split; [exact Hin|].
    apply stateChangePattern_spec; exact H.
Qed.

(** ** Payable functions *)

Lemma emitted_payable func startLine :
  withRule "payable-validation" (emitted func startLine)
  = when (isPayable func
          && negb (existsb
                     (fun ln =>
                        startsWith (js "require(msg.value") (trim ln)
                        || startsWith (js "if (msg.value") (trim ln))
                     (split_nl (code func))))
         (payableValidationFinding startLine).
Proof.
  unfold emitted. rewrite !withRule_app, !withRule_when.
  rule_off. rule_on. repeat rule_off. rewrite app_nil_r. reflexivity.
Qed.

Lemma In_emitted_rule id func startLine r b x :
  withRule id (emitted func startLine) = when b x ->
  rule x = id ->
  (In x (analyzeFunction func startLine []) <-> b = true)
  /\ (In r (analyzeFunction func startLine []) -> rule r = id -> r = x).
Proof.
  intros E Hx. rewrite (analyzeFunction_emits func startLine []). simpl app.
  split; [split|].
  - intros Hin.
    assert (H : In x (withRule id (emitted func startLine)))
      by (apply withRule_In; auto).
    rewrite E in H. apply In_when in H. tauto.
  - intros Hb.
    assert (H : In x (withRule id (emitted func startLine)))
      by (rewrite E; apply In_when; auto).
    apply withRule_In in H. tauto.
  - intros Hin Hr.
    assert (H : In r (withRule id (emitted func startLine)))
      by (apply withRule_In; auto).
    rewrite E in H. apply In_when in H. tauto.
Qed.

(** X5. A payable record gets the medium-severity payable-validation
    finding, at [startLine + 1], exactly when no line of its text, the
    signature line included, starts once trimmed with [require(msg.value] or
    [if (msg.value]; a record that is not payable never gets it, and no
    other finding is reported under that rule. *)
Theorem payable_validation (func : FunctionRecord) (startLine : Z) :
  (In (payableValidationFinding startLine) (analyzeFunction func startLine [])
   <-> isPayable func = true /\ ~ ValueValidated func)
  /\ (forall r, In r (analyzeFunction func startLine []) ->
                rule r = "payable-validation"%string ->
                r = payableValidationFinding startLine)
  /\ severity (payableValidationFinding startLine) = Medium
  /\ line (payableValidationFinding startLine) = (startLine + 1)%Z.
Proof.
  destruct (In_emitted_rule "payable-validation" func startLine
              (payableValidationFinding startLine) _ _
              (emitted_payable func startLine) eq_refl) as [H1 _].
  split; [|split; [|split; reflexivity]].
  - rewrite H1, andb_true_iff, negb_true_iff.
    assert (Hv : existsb
                   (fun ln =>
                      startsWith (js "require(msg.value") (trim ln)
                      || startsWith (js "if (msg.value") (trim ln))
                   (split_nl (code func)) = true <-> ValueValidated func).
    { rewrite existsb_exists. unfold ValueValidated.
      split; intros (ln & Hin & H); exists ln; (split; [exact Hin|]).
      - apply orb_true_iff; exact H.
      - apply orb_true_iff; exact H. }
    rewrite <- Hv. destruct (existsb _ _); intuition congruence.
  - intros r. 
    exact (proj2 (In_emitted_rule "payable-validation" func startLine
                    r _ _ (emitted_payable func startLine) eq_refl)).
Qed.

(** ** Unprotected functions *)

Lemma emitted_unprotected func startLine :
  withRule "unprotected-init" (emitted func startLine)
  = when (negb (isProtected func)
          && str_eqb (functionNameOf (code func)) (js "initialize"))
         (unprotectedInitFinding startLine)
  /\ withRule "unprotected-upgrade" (emitted func startLine)
     = when (negb (isProtected func)
             && str_eqb (functionNameOf (code func)) (js "upgrade"))
            (unprotectedUpgradeFinding startLine)
  /\ withRule "unprotected-withdraw" (emitted func startLine)
     = when (negb (isProtected func)
             && str_eqb (functionNameOf (code func)) (js "withdraw"))
            (unprotectedWithdrawFinding startLine)
  /\ withRule "unprotected-selfdestruct" (emitted func startLine)
     = when (negb (isProtected func)
             && existsb (fun ln => includes (js "selfdestruct") ln)
                  (split_nl (code func)))
            (unprotectedSelfdestructFinding startLine).
Proof.
  unfold emitted, isProtected. repeat split;
    rewrite !withRule_app, !withRule_when;
    repeat first [rule_off | rule_on];
    rewrite ?app_nil_r; reflexivity.
Qed.

(** X6. Unless a record is protected (its modifiers hold [onlyOwner]), the
    analyzer reports it as an unprotected initialization, upgrade or
    withdraw function exactly when its name, the first word that follows the
    function keyword in its text, is [initialize], [upgrade] or [withdraw],
    and as an unprotected selfdestruct exactly when one of its lines
    contains [selfdestruct]; the checks are independent.  A protected record
    gets none of the four findings. *)
Theorem unprotected_functions (func : FunctionRecord) (startLine : Z) :
  (isProtected func = false ->
   (In (unprotectedInitFinding startLine) (analyzeFunction func startLine [])
    <-> functionNameOf (code func) = js "initialize")
   /\ (In (unprotectedUpgradeFinding startLine)
         (analyzeFunction func startLine [])
       <-> functionNameOf (code func) = js "upgrade")
   /\ (In (unprotectedWithdrawFinding startLine)
         (analyzeFunction func startLine [])
       <-> functionNameOf (code func) = js "withdraw")
   /\ (In (unprotectedSelfdestructFinding startLine)
         (analyzeFunction func startLine [])
       <-> exists ln, In ln (split_nl (code func))
                      /\ Contains (js "selfdestruct") ln))
  /\ (isProtected func = true ->
      forall r, In r (analyzeFunction func startLine []) ->
                rule r <> "unprotected-init"%string
                /\ rule r <> "unprotected-upgrade"%string
                /\ rule r <> "unprotected-withdraw"%string
                /\ rule r <> "unprotected-selfdestruct"%string).
Proof.
  destruct (emitted_unprotected func startLine) as (E1 & E2 & E3 & E4).
  split.
  - intros Hp. rewrite Hp in E1, E2, E3, E4. simpl in E1, E2, E3, E4.
    rewrite <- !str_eqb_spec.
    rewrite (proj1 (In_emitted_rule _ func startLine
                      (unprotectedInitFinding startLine) _ _ E1 eq_refl)).
    rewrite (proj1 (In_emitted_rule _ func startLine
                      (unprotectedInitFinding startLine) _ _ E2 eq_refl)).
    rewrite (proj1 (In_emitted_rule _ func startLine
                      (unprotectedInitFinding startLine) _ _ E3 eq_refl)).
    rewrite (proj1 (In_emitted_rule _ func startLine
                      (unprotectedInitFinding startLine) _ _ E4 eq_refl)).
    repeat split; try tauto.
    + rewrite existsb_exists. intros (ln & Hin & H). exists ln.
      split; [exact Hin|apply includes_spec; exact H].
    + rewrite existsb_exists. intros (ln & Hin & H). exists ln.
      split; [exact Hin|apply includes_spec; exact H].
  - intros Hp r Hin. rewrite Hp in E1, E2, E3, E4. simpl in E1, E2, E3, E4.
    rewrite (analyzeFunction_emits func startLine []) in Hin. simpl in Hin.
    repeat split; intros Hr.
    + assert (H : In r (withRule "unprotected-init" (emitted func startLine)))
        by (apply withRule_In; auto).
      rewrite E1 in H. exact H.
    + assert (H : In r (withRule "unprotected-upgrade"
                          (emitted func startLine)))
        by (apply withRule_In; auto).
      rewrite E2 in H. exact H.
    + assert (H : In r (withRule "unprotected-withdraw"
                          (emitted func startLine)))
        by (apply withRule_In; auto).
      rewrite E3 in H. exact H.
    + assert (H : In r (withRule "unprotected-selfdestruct"
                          (emitted func startLine)))
        by (apply withRule_In; auto).
      rewrite E4 in H. exact H.
Qed.

Lemma includes_cons (pat : jsstring) (c : code_unit) (t : jsstring) :
  includes pat (c :: t) = startsWith pat (c :: t) || includes pat t.
Proof. reflexivity. Qed.

Lemma keywordWordAt_none (kw s : jsstring) :
  startsWith kw s = false -> keywordWordAt kw s = None.
Proof.
  unfold startsWith, keywordWordAt. destruct (dropPrefix kw s);
    [discriminate|reflexivity].
Qed.

Lemma matchAllModifier_none (s : jsstring) :
  includes (js "modifier") s = false ->
  forall skip, matchAllModifier s skip = [].
Proof.
  induction s as [|c t IH]; intros H skip; [reflexivity|].
  rewrite includes_cons in H. apply orb_false_iff in H as [H1 H2].
  simpl matchAllModifier. destruct skip; [|apply IH; exact H2].
  rewrite (keywordWordAt_none _ _ H1). apply IH; exact H2.
Qed.

Lemma startsWith_app_long (pat a b : jsstring) :
  (List.length pat <= List.length a)%nat ->
  startsWith pat (a ++ b) = startsWith pat a.
Proof.
  unfold startsWith. revert a. induction pat as [|p pat IH]; intros a Hlen.
  - reflexivity.
  - destruct a as [|x a]; [simpl in Hlen; lia|]. simpl.
    destruct (N.eqb p x); [|reflexivity]. apply IH. simpl in Hlen. lia.
Qed.

Lemma matchAllModifier_skip_prefix (pre rest : jsstring) :
  includes (js "modifier") (pre ++ js "modifie") = false ->
  matchAllModifier (pre ++ js "modifier" ++ rest) 0
  = matchAllModifier (js "modifier" ++ rest) 0.
Proof.
  induction pre as [|c pre IH]; intros H; [reflexivity|].
  change ((c :: pre) ++ js "modifie") with (c :: (pre ++ js "modifie")) in H.
  rewrite includes_cons in H. apply orb_false_iff in H as [H1 H2].
  change ((c :: pre) ++ js "modifier" ++ rest)
    with (c :: (pre ++ js "modifier" ++ rest)).
  assert (Hs : startsWith (js "modifier") (c :: (pre ++ js "modifier" ++ rest))
               = false).
  { change (c :: (pre ++ js "modifier" ++ rest))
      with ((c :: pre) ++ (js "modifie" ++ js "r") ++ rest).
    rewrite <- app_assoc, app_assoc.
    rewrite startsWith_app_long; [exact H1|].
    rewrite length_app. simpl. lia. }
  change (matchAllModifier (c :: (pre ++ js "modifier" ++ rest)) 0)
    with (match keywordWordAt (js "modifier")
                  (c :: (pre ++ js "modifier" ++ rest)) with
          | Some (m, _) =>
              m :: matchAllModifier (pre ++ js "modifier" ++ rest)
                     (List.length m - 1)
          | None => matchAllModifier (pre ++ js "modifier" ++ rest) 0
          end).
  rewrite (keywordWordAt_none _ _ Hs). apply IH; exact H2.
Qed.

Lemma takeWhile_word_end (post : jsstring) :
  post = [] \/ (exists c r, post = c :: r /\ isWordChar c = false) ->
  takeWhile isWordChar post = [].
Proof.
  intros [->|(c & r & -> & Hc)]; simpl; [|rewrite Hc]; reflexivity.
Qed.

Lemma matchAllModifier_step (c : code_unit) (t : jsstring) :
  matchAllModifier (c :: t) 0
  = match keywordWordAt (js "modifier") (c :: t) with
    | Some (m, _) => m :: matchAllModifier t (List.length m - 1)
    | None => matchAllModifier t 0
    end.
Proof. reflexivity. Qed.

Lemma keywordWordAt_onlyOwner (post : jsstring) :
  post = [] \/ (exists c r, post = c :: r /\ isWordChar c = false) ->
  keywordWordAt (js "modifier") (js "modifier" ++ js " onlyOwner" ++ post)
  = Some (js "modifier onlyOwner", js "onlyOwner").
Proof.
  intros Hpost. unfold keywordWordAt. rewrite dropPrefix_app.
  change (takeWhile isWhiteSpace (js " onlyOwner" ++ post)) with (js " ").
  change (dropWhile isWhiteSpace (js " onlyOwner" ++ post))
    with (js "onlyOwner" ++ post).
  change (takeWhile isWordChar (js "onlyOwner" ++ post))
    with (js "onlyOwner" ++ takeWhile isWordChar post).
  rewrite (takeWhile_word_end post Hpost). reflexivity.
Qed.

Lemma modifiers_onlyOwner (pre post : jsstring) :
  includes (js "modifier") (pre ++ js "modifie") = false ->
  post = [] \/ (exists c r, post = c :: r /\ isWordChar c = false) ->
  exists others,
    modifiers (openFunction (pre ++ js "modifier onlyOwner" ++ post))
    = js "onlyOwner" :: others.
Proof.
  intros Hpre Hpost.
  change (modifiers (openFunction (pre ++ js "modifier onlyOwner" ++ post)))
    with (map (fun m => replaceFirst (js "modifier ") [] m)
            (matchAllModifier
               (pre ++ js "modifier" ++ (js " onlyOwner" ++ post)) 0)).
  rewrite (matchAllModifier_skip_prefix pre _ Hpre).
  pose proof (keywordWordAt_onlyOwner post Hpost) as K.
  change (js "modifier" ++ js " onlyOwner" ++ post)
    with (ch "m" :: (js "odifier" ++ js " onlyOwner" ++ post)) in *.
  rewrite matchAllModifier_step, K.
  eexists. reflexivity.
Qed.

(** X7. Protection is read from the signature line, and only from the
    word [modifier] followed by a name: a function whose signature line does
    not contain [modifier] is never protected, whatever it names after its
    visibility, and one whose first [modifier] is followed by a space and the
    whole word [onlyOwner] is protected. *)
Theorem protection_by_modifier_keyword (signature : jsstring)
    (body : list jsstring) :
  let f := fold_left appendLine body (openFunction signature) in
  (~ Contains (js "modifier") signature -> isProtected f = false)
  /\ (forall pre post,
         signature = pre ++ js "modifier onlyOwner" ++ post ->
         ~ Contains (js "modifier") (pre ++ js "modifie") ->
         post = [] \/ (exists c r, post = c :: r /\ isWordChar c = false) ->
         isProtected f = true).
Proof.
  intros f.
  destruct (appendLines_fields body (openFunction signature))
    as (_ & _ & H3 & H4 & _).
  fold f in H3, H4. unfold isProtected. rewrite H3, H4. split.
  - intros Hno. apply includes_false in Hno.
    change (hasModifier (openFunction signature))
      with (0 <? Z.of_nat
                   (List.length
                      (map (fun m => replaceFirst (js "modifier ") [] m)
                         (matchAllModifier signature 0))))%Z.
    rewrite (matchAllModifier_none _ Hno 0). reflexivity.
  - intros pre post -> Hpre Hpost. apply includes_false in Hpre.
    destruct (modifiers_onlyOwner pre post Hpre Hpost) as (others & E).
    assert (Hm : hasModifier (openFunction
                                (pre ++ js "modifier onlyOwner" ++ post))
                 = true).
    { change (hasModifier
                (openFunction (pre ++ js "modifier onlyOwner" ++ post)))
        with (0 <? Z.of_nat
                     (List.length
                        (modifiers
                           (openFunction
                              (pre ++ js "modifier onlyOwner" ++ post)))))%Z.
      rewrite E. reflexivity. }
    rewrite Hm, E. reflexivity.
Qed.

(** A withdraw function that names [onlyOwner] the way Solidity attaches a
    modifier is reported as unprotected; written after the word [modifier]
    it is not. *)
Lemma protection_by_modifier_keyword_witness :
  isProtected
    (fold_left appendLine [js "}"]
       (openFunction (js "function withdraw() external onlyOwner {"))) = false
  /\ isProtected
       (fold_left appendLine [js "}"]
          (openFunction
             (js "function withdraw() external modifier onlyOwner {")))
     = true.
Proof.
  split.
  - apply (proj1 (protection_by_modifier_keyword
                    (js "function withdraw() external onlyOwner {")
                    [js "}"])).
    apply includes_false. vm_compute. reflexivity.
  - apply (proj2 (protection_by_modifier_keyword
                    (js "function withdraw() external modifier onlyOwner {")
                    [js "}"])
             (js "function withdraw() external ") (js " {")).
    + reflexivity.
    + apply includes_false. vm_compute. reflexivity.
    + right. exists (ch " "), (js "{"). split; reflexivity.
Defined.

(** ** The name of a function *)

Lemma word_not_whitespace (c : code_unit) :
  isWordChar c = true -> isWhiteSpace c = false.
Proof.
  unfold isWordChar, isWhiteSpace. intros H.
  rewrite !orb_true_iff, !andb_true_iff, !N.leb_le, N.eqb_eq in H.
  apply not_true_is_false. intros H'.
  rewrite !orb_true_iff, !andb_true_iff, !N.leb_le, !N.eqb_eq in H'.
  lia.
Qed.

Lemma takeWhile_app (p : code_unit -> bool) (a b : jsstring) :
  Forall (fun c => p c = true) a ->
  takeWhile p (a ++ b) = a ++ takeWhile p b.
Proof.
  induction 1 as [|c t Hc _ IH]; [reflexivity|]. simpl. rewrite Hc, IH.
  reflexivity.
Qed.

Lemma takeWhile_stop (p : code_unit -> bool) (c : code_unit) (t : jsstring) :
  p c = false -> takeWhile p (c :: t) = [].
Proof. intros H. simpl. rewrite H. reflexivity. Qed.

Lemma functionNameOf_unfold (s : jsstring) :
  functionNameOf s
  = match keywordWordAt (js "function") s with
    | Some (_, w) => w
    | None => match s with [] => [] | _ :: t => functionNameOf t end
    end.
Proof. destruct s; reflexivity. Qed.

Lemma functionNameOf_declared (ws name rest : jsstring) :
  ws <> [] -> Forall (fun c => isWhiteSpace c = true) ws ->
  name <> [] -> Forall (fun c => isWordChar c = true) name ->
  rest = [] \/ (exists c r, rest = c :: r /\ isWordChar c = false) ->
  functionNameOf (js "function" ++ ws ++ name ++ rest) = name.
Proof.
  intros Hws Hws' Hname Hname' Hrest.
  rewrite functionNameOf_unfold. unfold keywordWordAt.
  rewrite dropPrefix_app.
  destruct name as [|n name]; [contradiction|].
  inversion Hname' as [|? ? Hn Hname'']; subst.
  assert (E1 : takeWhile isWhiteSpace (ws ++ (n :: name) ++ rest) = ws).
  { rewrite (takeWhile_app _ _ _ Hws').
    change ((n :: name) ++ rest) with (n :: (name ++ rest)).
    rewrite (takeWhile_stop isWhiteSpace n _ (word_not_whitespace n Hn)).
    apply app_nil_r. }
  assert (E2 : dropWhile isWhiteSpace (ws ++ (n :: name) ++ rest)
               = (n :: name) ++ rest).
  { change ((n :: name) ++ rest) with (n :: (name ++ rest)).
    apply dropWhile_app; [exact Hws'|].
    apply word_not_whitespace; exact Hn. }
  rewrite E1, E2, (takeWhile_app _ _ _ Hname'),
    (takeWhile_word_end rest Hrest), app_nil_r.
  destruct ws; [contradiction|reflexivity].
Qed.

Lemma join_nl_cons (l : jsstring) (ls : list jsstring) :
  join_nl (l :: ls)
  = l ++ match ls with [] => [] | _ :: _ => LF :: join_nl ls end.
Proof. destruct ls; [symmetry; apply app_nil_r|reflexivity]. Qed.

(** X8. The name under which a function is checked is the word that
    follows the function keyword on its signature line: for a signature
    line made of the keyword, whitespace, a name of word characters and
    anything that does not continue the name, the analyzer reads that name,
    whatever the body holds. *)
Theorem function_name_read (ws name rest : jsstring) (body : list jsstring) :
  ws <> [] -> Forall (fun c => isWhiteSpace c = true) ws ->
  name <> [] -> Forall (fun c => isWordChar c = true) name ->
  rest = [] \/ (exists c r, rest = c :: r /\ isWordChar c = false) ->
  functionNameOf
    (code (fold_left appendLine body
             (openFunction (js "function" ++ ws ++ name ++ rest))))
  = name.
Proof.
  intros Hws Hws' Hname Hname' Hrest.
  rewrite code_appendLines, join_nl_cons.
  change (code (openFunction (js "function" ++ ws ++ name ++ rest)))
    with (js "function" ++ ws ++ name ++ rest).
  rewrite <- !app_assoc.
  apply functionNameOf_declared; try assumption.
  destruct Hrest as [->|(c & r & -> & Hc)].
  - destruct body; [left; reflexivity|right].
    exists LF, (join_nl (j :: body)). split; reflexivity.
  - right. exists c. eexists. split; [reflexivity|exact Hc].
Qed.

(** The signature line of a withdraw function. *)
Lemma function_name_read_witness :
  functionNameOf
    (code (fold_left appendLine [js "msg.sender.transfer(amount);"; js "}"]
             (openFunction (js "function withdraw(uint amount) public {"))))
  = js "withdraw".
Proof.
  apply (function_name_read (js " ") (js "withdraw")
           (js "(uint amount) public {")).
  - discriminate.
  - repeat constructor.
  - discriminate.
  - repeat constructor.
  - right. exists (ch "("), (js "uint amount) public {"). split; reflexivity.
Defined.

(** ** The rule catalogue *)

Ltac check_agrees H :=
  repeat match type of H with
         | (if ?b then _ else _) = _ => destruct b
         end;
  try discriminate H; injection H as <-; repeat split.

Lemma rules_agree :
  Forall (fun r => forall text ln res,
              check r text ln = Some res -> agrees r ln res) rules.
Proof.
  unfold rules.
  repeat (apply Forall_cons;
          [intros text ln res H;
           cbv beta iota zeta delta
             [check reentrancyRule txOriginRule timestampRule
                hardcodedAddressRule uncheckedSendRule delegatecallRule
                selfdestructRule suicideRule throwRule gasLimitRule] in H;
           check_agrees H|]).
  apply Forall_nil.
Qed.

(** X9. The catalogue is coherent: whatever a rule reports carries the
    rule's own identifier, severity and recommendation, the line number it
    was given and column 1; and since the ten identifiers are pairwise
    distinct, a finding of the catalogue names the one rule it comes
    from. *)
Theorem catalogue_coherent :
  (forall r text ln res,
      In r rules -> check r text ln = Some res -> agrees r ln res)
  /\ NoDup (map ruleId rules)
  /\ (forall r r' text text' ln ln' res,
         In r rules -> In r' rules ->
         check r text ln = Some res -> check r' text' ln' = Some res ->
         r = r').
Proof.
  assert (H1 : forall r text ln res,
             In r rules -> check r text ln = Some res -> agrees r ln res).
  { intros r text ln res Hin. revert text ln res.
    pose proof rules_agree as HR. rewrite Forall_forall in HR.
    exact (HR r Hin). }
  assert (H2 : NoDup (map ruleId rules)).
  { unfold rules. simpl.
    repeat (constructor;
            [simpl; intros H;
             repeat (destruct H as [H|H]; [discriminate H|]); exact H|]).
    constructor. }
  split; [exact H1|]. split; [exact H2|].
  intros r r' text text' ln ln' res Hr Hr' E E'.
  destruct (H1 _ _ _ _ Hr E) as (Hid & _).
  destruct (H1 _ _ _ _ Hr' E') as (Hid' & _).
  assert (Heq : ruleId r = ruleId r') by congruence.
  clear - Hr Hr' Heq.
  unfold rules in Hr, Hr'. simpl in Hr, Hr'.
  repeat (destruct Hr as [<-|Hr]);
    try contradiction;
    repeat (destruct Hr' as [<-|Hr']);
    try contradiction; try reflexivity; discriminate Heq.
Qed.

Lemma addressAt_spec (s : jsstring) :
  addressAt s = true <->
  exists digits post,
    s = js "0x" ++ digits ++ post
    /\ List.length digits = 40%nat
    /\ Forall (fun c => isHexDigit c = true) digits.
Proof.
  unfold addressAt. split.
  - destruct (dropPrefix (js "0x") s) as [r|] eqn:E; [|discriminate].
    apply dropPrefix_spec in E as ->. intros H.
    apply andb_true_iff in H as [Hlen Hhex].
    apply Nat.eqb_eq in Hlen. rewrite forallb_forall in Hhex.
    exists (firstn 40 r), (skipn 40 r). rewrite firstn_skipn.
    split; [reflexivity|]. split; [exact Hlen|].
    apply Forall_forall; exact Hhex.
  - intros (digits & post & -> & Hlen & Hhex).
    rewrite dropPrefix_app.
    rewrite <- Hlen, firstn_app, firstn_all, Nat.sub_diag, firstn_O, app_nil_r.
    rewrite Nat.eqb_refl. apply forallb_forall.
    apply Forall_forall; exact Hhex.
Qed.

Lemma hardcodedAddress_spec (ln : jsstring) :
  search addressAt ln = true <-> HexLiteral40 ln.
Proof.
  rewrite search_spec. unfold HexLiteral40. split.
  - intros (pre & suf & -> & H). apply addressAt_spec in H
      as (digits & post & -> & Hlen & Hhex).
    exists pre, digits, post. auto.
  - intros (pre & digits & post & -> & Hlen & Hhex).
    exists pre, (js "0x" ++ digits ++ post). split; [reflexivity|].
    apply addressAt_spec. exists digits, post. auto.
Qed.

(** X10. The hardcoded-address rule reports a line exactly when the line
    holds [0x] followed by forty hexadecimal digits, in either case.  It does
    not ask the literal to end there: a longer literal, such as a 32-byte
    hash, is reported as an address too. *)
Theorem hardcoded_address_rule (text : jsstring) (ln : Z) :
  (check hardcodedAddressRule text ln <> None <-> HexLiteral40 text)
  /\ (forall pre digits post,
         text = pre ++ js "0x" ++ digits ++ post ->
         (40 <= List.length digits)%nat ->
         Forall (fun c => isHexDigit c = true) digits ->
         exists res, check hardcodedAddressRule text ln = Some res
                     /\ rule res = "hardcoded-address"%string
                     /\ severity res = Medium /\ line res = ln).
Proof.
  assert (H : forall b : bool,
             (if b
              then Some {| severity := Medium;
                           message := "Hardcoded address detected";
                           line := ln; column := 1;
                           rule := "hardcoded-address";
                           description :=
                             "Contract contains hardcoded Ethereum addresses.";
                           recommendation :=
                             "Use configuration variables or constructor parameters instead of hardcoded addresses." |}
              else None) <> None <-> b = true).
  { intros []; split; congruence. }
  split.
  - rewrite <- hardcodedAddress_spec. apply H.
  - intros pre digits post E Hlen Hhex.
    assert (Hlit : HexLiteral40 text).
    { exists pre, (firstn 40 digits), (skipn 40 digits ++ post).
      rewrite (app_assoc (firstn 40 digits)), firstn_skipn.
      split; [exact E|].
      split; [apply firstn_length_le; exact Hlen|].
      rewrite <- (firstn_skipn 40 digits) in Hhex.
      apply Forall_app in Hhex as [Hhex _]. exact Hhex. }
    apply hardcodedAddress_spec in Hlit.
    cbv beta iota zeta delta [check hardcodedAddressRule]. rewrite Hlit.
    eexists. repeat split.
Qed.

(** A 32-byte constant. *)
Lemma hardcoded_address_rule_witness :
  exists res,
    check hardcodedAddressRule
      (js "bytes32 constant SALT = 0x" ++ repeat (ch "a") 64 ++ js ";") 7
    = Some res
    /\ rule res = "hardcoded-address"%string.
Proof.
  destruct (proj2 (hardcoded_address_rule
                     (js "bytes32 constant SALT = 0x" ++ repeat (ch "a") 64
                      ++ js ";") 7)
              (js "bytes32 constant SALT = ") (repeat (ch "a") 64) (js ";"))
    as (res & E & Hr & _).
  - reflexivity.
  - simpl. lia.
  - apply Forall_forall. intros c Hc. apply repeat_spec in Hc. subst.
    reflexivity.
  - exists res. split; assumption.
Defined.

Lemma if_Some_not_None {A : Type} (b : bool) (x : A) :
  (if b then Some x else None) <> None <-> b = true.
Proof. destruct b; split; congruence. Qed.

Lemma Contains_longer (pat more s : jsstring) :
  Contains (pat ++ more) s -> Contains pat s.
Proof.
  intros (pre & post & ->). exists pre, (more ++ post).
  rewrite <- app_assoc. reflexivity.
Qed.

(** X11. The reentrancy rule of the catalogue looks at one line and at
    nothing else: it reports the line exactly when the line contains one of
    [.call{], [.send(], [.transfer(] and one of [balances[], [+=], [-=], in
    whatever order they come.  Every line it reports also matches the
    external-call expression of the function scanner. *)
Theorem reentrancy_line_rule (text : jsstring) (ln : Z) :
  nth_error rules 0 = Some reentrancyRule
  /\ (check reentrancyRule text ln <> None <->
      (Contains (js ".call{") text \/ Contains (js ".send(") text
       \/ Contains (js ".transfer(") text)
      /\ (Contains (js "balances[") text \/ Contains (js "+=") text
          \/ Contains (js "-=") text))
  /\ (check reentrancyRule text ln <> None -> ExternalCall text).
Proof.
  split; [reflexivity|].
  assert (H : check reentrancyRule text ln <> None <->
              (Contains (js ".call{") text \/ Contains (js ".send(") text
               \/ Contains (js ".transfer(") text)
              /\ (Contains (js "balances[") text \/ Contains (js "+=") text
                  \/ Contains (js "-=") text)).
  { cbv beta iota zeta delta [check reentrancyRule].
    rewrite if_Some_not_None, andb_true_iff, !orb_true_iff, !includes_spec.
    tauto. }
  split; [exact H|]. intros Hc. apply H in Hc as [Hcall _].
  destruct Hcall as [(pre & post & ->)|[(pre & post & ->)|(pre & post & ->)]].
  - exists pre, (js "call"), [], (ch "{"), post.
    split; [reflexivity|]. split; [simpl; auto|]. split; [constructor|auto].
  - exists pre, (js "send"), [], (ch "("), post.
    split; [reflexivity|]. split; [simpl; auto|]. split; [constructor|auto].
  - exists pre, (js "transfer"), [], (ch "("), post.
    split; [reflexivity|]. split; [simpl; auto|]. split; [constructor|auto].
Qed.

(** X12. The gas-limit rule reports a line exactly when the line contains
    [for (] or [while (] and none of [require(], [if (], [assert(].  It
    shares that guard with the unchecked-send rule: a line that holds one of
    the three is reported by neither. *)
Theorem gas_limit_rule (text : jsstring) (ln : Z) :
  nth_error rules 9 = Some gasLimitRule
  /\ (check gasLimitRule text ln <> None <->
      (Contains (js "for (") text \/ Contains (js "while (") text)
      /\ ~ Contains (js "require(") text
      /\ ~ Contains (js "if (") text
      /\ ~ Contains (js "assert(") text)
  /\ (Contains (js "require(") text \/ Contains (js "if (") text
      \/ Contains (js "assert(") text ->
      check gasLimitRule text ln = None
      /\ check uncheckedSendRule text ln = None).
Proof.
  split; [reflexivity|].
  rewrite <- !includes_spec.
  cbv beta iota zeta delta [check gasLimitRule uncheckedSendRule].
  destruct (includes (js "for (") text), (includes (js "while (") text),
    (includes (js "require(") text), (includes (js "if (") text),
    (includes (js "assert(") text), (includes (js ".send(") text),
    (includes (js ".transfer(") text); simpl; intuition congruence.
Qed.

Lemma In_unprotectedSelfdestruct (func : FunctionRecord) (startLine : Z) :
  In (unprotectedSelfdestructFinding startLine)
     (analyzeFunction func startLine [])
  <-> isProtected func = false
      /\ exists ln, In ln (split_nl (code func))
                    /\ Contains (js "selfdestruct") ln.
Proof.
  destruct (emitted_unprotected func startLine) as (_ & _ & _ & E).
  rewrite (proj1 (In_emitted_rule _ func startLine
                    (unprotectedSelfdestructFinding startLine) _ _ E eq_refl)).
  rewrite andb_true_iff, negb_true_iff, existsb_exists.
  split; intros (Hp & ln & Hin & H); (split; [exact Hp|]); exists ln;
    (split; [exact Hin|apply includes_spec; exact H]).
Qed.

Lemma record_lines (signature : jsstring) (body : list jsstring) :
  Forall singleLine (signature :: body) ->
  split_nl (code (fold_left appendLine body (openFunction signature)))
  = signature :: body.
Proof.
  intros H. rewrite code_appendLines. apply split_nl_join; [discriminate|].
  exact H.
Qed.

(** X13. Six rules of the catalogue are plain substring tests: each
    reports a line exactly when the line contains its pattern.  The
    selfdestruct rule asks for the opening parenthesis and the check of the
    function analyzer does not, so a function that is not protected and has
    a line reported by that rule is also reported as an unprotected
    selfdestruct. *)
Theorem substring_rules (text : jsstring) (ln : Z) :
  (check txOriginRule text ln <> None <-> Contains (js "tx.origin") text)
  /\ (check timestampRule text ln <> None
      <-> Contains (js "block.timestamp") text)
  /\ (check delegatecallRule text ln <> None
      <-> Contains (js ".delegatecall(") text)
  /\ (check selfdestructRule text ln <> None
      <-> Contains (js "selfdestruct(") text)
  /\ (check suicideRule text ln <> None <-> Contains (js "suicide(") text)
  /\ (check throwRule text ln <> None <-> Contains (js "throw;") text)
  /\ (forall signature body startLine,
         Forall singleLine (signature :: body) ->
         In text (signature :: body) ->
         check selfdestructRule text ln <> None ->
         isProtected (fold_left appendLine body (openFunction signature))
         = false ->
         In (unprotectedSelfdestructFinding startLine)
            (analyzeFunction
               (fold_left appendLine body (openFunction signature))
               startLine [])).
Proof.
  cbv beta iota zeta delta
    [check txOriginRule timestampRule delegatecallRule selfdestructRule
       suicideRule throwRule].
  rewrite !if_Some_not_None, !includes_spec.
  repeat split; try tauto.
  intros signature body startLine Hlines Hin H Hp.
  apply In_unprotectedSelfdestruct. split; [exact Hp|].
  exists text. rewrite (record_lines _ _ Hlines). split; [exact Hin|].
  apply if_Some_not_None, includes_spec in H.
  exact (Contains_longer (js "selfdestruct") (js "(") text H).
Qed.

(** ** What every finding satisfies *)

Section FindingInvariant.

Variable P : SmartCheckResult -> bool.
Hypothesis P_syntax : P syntaxError = true.
Hypothesis P_preamble : forall c i, P (stateVisibilityFinding c i) = true.
Hypothesis P_emitted : forall f sl, forallb P (emitted f sl) = true.
Hypothesis P_rules :
  forall r text ln res,
    In r rules -> check r text ln = Some res -> P res = true.

Lemma functionPass_invariant lines contractLine :
  forallb P (functionPass lines contractLine) = true.
Proof using P_preamble P_emitted.
  unfold functionPass.
  set (pre := forEach _ (slice _ _ _) []).
  assert (Hpre : forallb P pre = true).
  { unfold pre, forEach.
    apply (forEachFrom_invariant (fun rs => forallb P rs = true));
      [|reflexivity].
    intros st x i Hst. unfold checkStateVariable.
    destruct (_ && _); [apply forallb_push; auto|exact Hst]. }
  assert (Han : forall f sl rs, forallb P rs = true ->
                  forallb P (analyzeFunction f sl rs) = true).
  { intros f sl rs Hrs.
    rewrite analyzeFunction_emits, forallb_app, Hrs, P_emitted.
    reflexivity. }
  set (st := forEach scanLine lines _).
  assert (Hst : forallb P (results st) = true).
  { unfold st, forEach.
    apply (forEachFrom_invariant (fun s => forallb P (results s) = true));
      [|exact Hpre].
    intros s x i Hs. unfold scanLine.
    destruct (startsWith (js "function") x); simpl.
    - destruct (currentFunction s); [apply Han|]; exact Hs.
    - destruct (currentFunction s); exact Hs. }
  destruct (currentFunction st); [apply Han|]; exact Hst.
Qed.

Lemma applyRules_invariant lines rs :
  forallb P rs = true -> forallb P (applyRules lines rs) = true.
Proof using P_rules.
  unfold applyRules, forEach.
  apply (forEachFrom_invariant (fun rs => forallb P rs = true)).
  intros st ln i Hst.
  assert (H : forall l, incl l rules ->
                forall st, forallb P st = true ->
                  forallb P (fold_left (applyRule ln i) l st) = true).
  { induction l as [|r l IH]; intros Hincl st' Hst'; simpl; [exact Hst'|].
    apply IH; [intros x Hx; apply Hincl; right; exact Hx|].
    unfold applyRule.
    destruct (check r ln (i + 1)) as [res|] eqn:E; [|exact Hst'].
    unfold pushUnlessSimilar. destruct (negb _); [|exact Hst'].
    apply forallb_push; [exact Hst'|].
    apply (P_rules r ln (i + 1)%Z res); [|exact E].
    apply Hincl; left; reflexivity. }
  apply H; [apply incl_refl|exact Hst].
Qed.

Lemma analyzeContractSimple_invariant src :
  forallb P (analyzeContractSimple src) = true.
Proof using P_syntax P_preamble P_emitted P_rules.
  unfold analyzeContractSimple. destruct (_ =? _)%Z.
  - simpl. rewrite P_syntax. reflexivity.
  - apply applyRules_invariant, functionPass_invariant.
Qed.

End FindingInvariant.

Lemma analyzeContractSimple_graded (src : jsstring) :
  forallb graded (analyzeContractSimple src) = true.
Proof.
  apply analyzeContractSimple_invariant.
  - reflexivity.
  - reflexivity.
  - intros f sl. unfold emitted. rewrite !forallb_app, !forallb_when;
      reflexivity.
  - intros r text ln res Hin E.
    pose proof rules_agree as HR. rewrite Forall_forall in HR.
    destruct (HR r Hin text ln res E) as (Hid & Hsev & _ & _ & Hcol).
    unfold graded. rewrite Hid, Hsev, Hcol.
    unfold rules in Hin. simpl in Hin.
    repeat (destruct Hin as [<-|Hin]; [reflexivity|]). destruct Hin.
Qed.

Lemma finalize_cases (rs : list SmartCheckResult) :
  finalize rs = [analysisComplete] \/ finalize rs = rs.
Proof. unfold finalize. destruct (_ || _); auto. Qed.

(** X14. The severity of a finding is a function of its rule identifier,
    and its column is always 1: whatever the input and the persistence
    collaborator, every finding returned carries the severity listed for its
    rule, so two findings under the same rule never differ in severity,
    whether they come from the function analyzer or from the catalogue. *)
Theorem severity_by_rule (sb : Supabase) (input : JsValue) :
  (forall r, In r (analyzeContract sb input) ->
             severityOf (rule r) = Some (severity r) /\ column r = 1%Z)
  /\ (forall r r', In r (analyzeContract sb input) ->
                   In r' (analyzeContract sb input) ->
                   rule r = rule r' -> severity r = severity r').
Proof.
  assert (Hg : forallb graded (analyzeContract sb input) = true).
  { destruct input as [[|c t]|]; simpl; try reflexivity.
    destruct (persistenceReturns sb); [|reflexivity].
    destruct (finalize_cases
                (analyzeContractSimple (preprocessSolidityCode (c :: t))))
      as [-> | ->]; [reflexivity|apply analyzeContractSimple_graded]. }
  rewrite forallb_forall in Hg.
  assert (H : forall r, In r (analyzeContract sb input) ->
                severityOf (rule r) = Some (severity r) /\ column r = 1%Z).
  { intros r Hr. specialize (Hg r Hr). unfold graded in Hg.
    apply andb_true_iff in Hg as [Hs Hc]. apply Z.eqb_eq in Hc.
    split; [|exact Hc].
    destruct (severityOf (rule r)) as [s|]; [|discriminate].
    destruct s, (severity r); try discriminate; reflexivity. }
  split; [exact H|].
  intros r r' Hr Hr' E. destruct (H r Hr) as [H1 _], (H r' Hr') as [H2 _].
  rewrite E in H1. congruence.
Qed.

Lemma analyzeContractSimple_fromAnalysis (src : jsstring) :
  forallb fromAnalysis (analyzeContractSimple src) = true.
Proof.
  apply analyzeContractSimple_invariant.
  - reflexivity.
  - reflexivity.
  - intros f sl. unfold emitted. rewrite !forallb_app, !forallb_when;
      reflexivity.
  - intros r text ln res Hin E.
    pose proof rules_agree as HR. rewrite Forall_forall in HR.
    destruct (HR r Hin text ln res E) as (Hid & Hsev & _).
    unfold fromAnalysis, substantive. rewrite Hid, Hsev.
    unfold rules in Hin. simpl in Hin.
    repeat (destruct Hin as [<-|Hin]; [reflexivity|]). destruct Hin.
Qed.

Lemma finalize_fromAnalysis (rs : list SmartCheckResult) :
  forallb fromAnalysis rs = true ->
  (rs = [] /\ finalize rs = [analysisComplete])
  \/ (exists r rs', rs = r :: rs' /\ finalize rs = rs
                    /\ fromAnalysis r = true).
Proof.
  intros H. destruct rs as [|r rs']; [left; split; reflexivity|].
  right. exists r, rs'. simpl in H. apply andb_true_iff in H as [Hr _].
  split; [reflexivity|]. split; [|exact Hr].
  unfold fromAnalysis, substantive in Hr.
  apply andb_true_iff in Hr as [Hr _]. apply andb_true_iff in Hr as [Hr _].
  apply andb_true_iff in Hr as [Hr _]. apply negb_true_iff in Hr.
  unfold finalize. simpl. rewrite Hr. reflexivity.
Qed.

Lemma analyzeContract_cases (sb : Supabase) (input : JsValue) :
  ((forall s, input = JsString s -> s = [])
   /\ analyzeContract sb input = [inputValidationError])
  \/ (exists s, input = JsString s /\ s <> []
                /\ persistenceReturns sb = false
                /\ analyzeContract sb input = [internalError])
  \/ (exists s, input = JsString s /\ s <> []
                /\ persistenceReturns sb = true
                /\ analyzeContractSimple (preprocessSolidityCode s) = []
                /\ analyzeContract sb input = [analysisComplete])
  \/ (exists s r rs',
         input = JsString s /\ s <> []
         /\ persistenceReturns sb = true
         /\ analyzeContractSimple (preprocessSolidityCode s) = r :: rs'
         /\ analyzeContract sb input = r :: rs'
         /\ fromAnalysis r = true).
Proof.
  destruct input as [[|c t]|].
  - left. split; [|reflexivity]. intros s [= <-]. reflexivity.
  - right. unfold analyzeContract.
    destruct (persistenceReturns sb) eqn:Hsb.
    + right.
      destruct (finalize_fromAnalysis _
                  (analyzeContractSimple_fromAnalysis
                     (preprocessSolidityCode (c :: t))))
        as [[E0 E]|(r & rs' & E0 & E & Hr)].
      * left. exists (c :: t). rewrite E.
        repeat split; try assumption; discriminate.
      * right. exists (c :: t), r, rs'. rewrite E.
        repeat split; try assumption; discriminate.
    + left. exists (c :: t). repeat split; discriminate.
  - left. split; [|reflexivity]. intros s [=].
Qed.

(** X15. The entry point always answers with at least one finding, and
    its three special answers are told apart by the input alone: the
    input-validation finding alone exactly for an input that is not a
    non-empty string, the internal-error finding alone exactly when a
    non-empty string was analyzed and the persistence collaborator rejected,
    whatever the analysis had found, and otherwise the sentinel exactly when
    the scanner found nothing. *)
Theorem result_shape (sb : Supabase) (input : JsValue) :
  analyzeContract sb input <> []
  /\ (analyzeContract sb input = [inputValidationError]
      <-> forall s, input = JsString s -> s = [])
  /\ (analyzeContract sb input = [internalError]
      <-> exists s, input = JsString s /\ s <> []
                    /\ persistenceReturns sb = false)
  /\ (forall s,
         input = JsString s -> s <> [] -> persistenceReturns sb = true ->
         (analyzeContract sb input = [analysisComplete]
          <-> analyzeContractSimple (preprocessSolidityCode s) = [])).
Proof.
  destruct (analyzeContract_cases sb input)
    as [(Hinv & E)
       |[(s & Ei & Hs & Hsb & E)
        |[(s & Ei & Hs & Hsb & E0 & E)
         |(s & r & rs' & Ei & Hs & Hsb & E0 & E & Hr)]]];
    rewrite E; (split; [discriminate|]); (split; [|split]).
  - split; auto.
  - split; [discriminate|]. intros (s & Ei & Hs & _).
    destruct (Hs (Hinv s Ei)).
  - intros s Ei Hs. destruct (Hs (Hinv s Ei)).
  - split; [discriminate|]. intros H. destruct (Hs (H s Ei)).
  - split; [intros _; exists s; auto|reflexivity].
  - intros s' _ _ Hsb'. congruence.
  - split; [discriminate|]. intros H. destruct (Hs (H s Ei)).
  - split; [discriminate|]. intros (s' & _ & _ & Hf). congruence.
  - intros s' Ei' _ _. assert (s' = s) by congruence. subst s'.
    split; auto.
  - split; [|intros H; destruct (Hs (H s Ei))].
    intros H. injection H as -> _. discriminate Hr.
  - split; [|intros (s' & _ & _ & Hf); congruence].
    intros H. injection H as -> _. discriminate Hr.
  - intros s' Ei' _ _. assert (s' = s) by congruence. subst s'.
    split; [|intros H; congruence].
    intros H. injection H as -> _. discriminate Hr.
Qed.

(** ** Line numbers *)

Lemma forEachFrom_invariant_index {A S : Type} (I : S -> Prop)
    (f : S -> A -> Z -> S) (l : list A) :
  forall (i : Z) (st : S),
    (forall st x j,
        (i <= j < i + Z.of_nat (List.length l))%Z -> I st -> I (f st x j)) ->
    I st -> I (forEachFrom f l i st).
Proof.
  induction l as [|x t IH]; intros i st Hf Hst; simpl; [exact Hst|].
  apply IH.
  - intros st' y j Hj. apply Hf. simpl List.length. lia.
  - apply Hf; [simpl List.length; lia|exact Hst].
Qed.

Lemma functionPass_records (lines : list jsstring) (contractLine : Z) :
  functionPass lines contractLine
  = forEach (checkStateVariable contractLine)
      (slice lines (contractLine + 1)
         (findIndex
            (fun ln index =>
               (index >? contractLine)%Z && startsWith (js "function") ln)
            lines)) []
    ++ flat_map analyzeRecord (functionRecords lines 0).
Proof.
  unfold functionPass.
  change (match currentFunction (forEach scanLine lines ?s) with
          | Some f => analyzeFunction f (functionStartLine _) (results _)
          | None => results _
          end) with (analyzeLast (forEach scanLine lines s)).
  unfold forEach at 1. rewrite scan_functionRecords. reflexivity.
Qed.

Lemma slice_length {A : Type} (l : list A) (a b : Z) :
  (0 <= a <= Z.of_nat (List.length l))%Z ->
  (Z.of_nat (List.length (slice l a b)) <= Z.of_nat (List.length l) - a)%Z.
Proof.
  intros Ha. unfold slice. destruct (Z.ltb_spec a 0); [lia|].
  rewrite length_firstn, length_skipn.
  destruct (b <? 0)%Z; lia.
Qed.

Lemma preamble_within (c : Z) (vars : list jsstring) (n : Z) :
  (0 <= c)%Z -> (c + Z.of_nat (List.length vars) + 1 <= n)%Z ->
  forallb (within n) (forEach (checkStateVariable c) vars []) = true.
Proof.
  intros Hc Hn. unfold forEach.
  apply (forEachFrom_invariant_index
           (fun rs => forallb (within n) rs = true)); [|reflexivity].
  intros st x j Hj Hst. unfold checkStateVariable.
  destruct (_ && _); [|exact Hst].
  apply forallb_push; [exact Hst|]. unfold within. simpl line.
  apply andb_true_iff. split; apply Z.leb_le; lia.
Qed.

Lemma emitted_within (f : FunctionRecord) (i n : Z) :
  (0 <= i < n)%Z -> forallb (within n) (emitted f i) = true.
Proof.
  intros Hi.
  assert (H : forall sl r, line r = (sl + 1)%Z -> sl = i -> within n r = true).
  { intros sl r E ->. unfold within. rewrite E.
    apply andb_true_iff. split; apply Z.leb_le; lia. }
  unfold emitted. rewrite !forallb_app, !forallb_when;
    try reflexivity; apply (H i); reflexivity.
Qed.

Lemma records_within (lines : list jsstring) (n : Z) :
  forall i0 : Z,
    (0 <= i0)%Z -> (i0 + Z.of_nat (List.length lines) <= n)%Z ->
    forallb (within n) (flat_map analyzeRecord (functionRecords lines i0))
    = true.
Proof.
  induction lines as [|l t IH]; intros i0 H0 Hn; [reflexivity|].
  simpl List.length in Hn. simpl functionRecords.
  destruct (startsWith (js "function") l).
  - simpl flat_map. rewrite forallb_app. unfold analyzeRecord at 1.
    simpl fst. simpl snd. rewrite analyzeFunction_emits. simpl app.
    rewrite emitted_within by lia. apply IH; lia.
  - apply IH; lia.
Qed.

Lemma applyRules_within (lines : list jsstring) (n : Z)
    (rs : list SmartCheckResult) :
  (Z.of_nat (List.length lines) <= n)%Z ->
  forallb (within n) rs = true ->
  forallb (within n) (applyRules lines rs) = true.
Proof.
  intros Hn Hrs. unfold applyRules, forEach.
  apply (forEachFrom_invariant_index
           (fun rs => forallb (within n) rs = true)); [|exact Hrs].
  intros st ln i Hi Hst.
  assert (H : forall l, incl l rules ->
                forall st, forallb (within n) st = true ->
                  forallb (within n) (fold_left (applyRule ln i) l st) = true).
  { induction l as [|r l IH]; intros Hincl st' Hst'; simpl; [exact Hst'|].
    apply IH; [intros x Hx; apply Hincl; right; exact Hx|].
    unfold applyRule.
    destruct (check r ln (i + 1)) as [res|] eqn:E; [|exact Hst'].
    unfold pushUnlessSimilar. destruct (negb _); [|exact Hst'].
    apply forallb_push; [exact Hst'|].
    pose proof rules_agree as HR. rewrite Forall_forall in HR.
    destruct (HR r (Hincl r (or_introl eq_refl)) ln (i + 1)%Z res E)
      as (_ & _ & _ & Hline & _).
    unfold within. rewrite Hline. apply andb_true_iff.
    split; apply Z.leb_le; lia. }
  apply H; [apply incl_refl|exact Hst].
Qed.

Lemma split_nl_length (s : jsstring) : (1 <= List.length (split_nl s))%nat.
Proof.
  induction s as [|c t IH]; simpl; [lia|].
  destruct (N.eqb c LF); [simpl; lia|].
  destruct (split_nl t); simpl in *; lia.
Qed.

Lemma analyzeContractSimple_within (src : jsstring) :
  forallb (within (Z.of_nat (List.length (split_nl src))))
    (analyzeContractSimple src) = true.
Proof.
  pose proof (split_nl_length src) as Hlen.
  unfold analyzeContractSimple.
  set (lines := map trim (split_nl src)).
  assert (Hl : List.length lines = List.length (split_nl src))
    by apply length_map.
  rewrite <- Hl in *.
  set (c := findIndex (fun ln _ => startsWith (js "contract") ln) lines).
  destruct (Z.eqb_spec c (-1)) as [_|Hc].
  - unfold forallb, within. rewrite andb_true_r.
    change (line syntaxError) with 1%Z.
    apply andb_true_iff. split; apply Z.leb_le; lia.
  - assert (Hb : (0 <= c < Z.of_nat (List.length lines))%Z).
    { destruct (findIndexFrom_bounds
                  (fun ln (_ : Z) => startsWith (js "contract") ln) lines 0%Z
                  ltac:(lia)) as [H|H]; [contradiction|].
      unfold c, findIndex. lia. }
    apply applyRules_within; [lia|].
    rewrite functionPass_records, forallb_app.
    rewrite records_within by lia. rewrite andb_true_r.
    apply preamble_within; [lia|].
    pose proof (slice_length lines (c + 1)
                  (findIndex
                     (fun ln index =>
                        (index >? c)%Z && startsWith (js "function") ln)
                     lines) ltac:(lia)).
    lia.
Qed.

(** X16. Every finding points into the text that was scanned: for a
    string input, each finding returned has a line number between 1 and the
    number of lines of the preprocessed source; for any input the line
    number is at least 1. *)
Theorem line_numbers_in_range (sb : Supabase) :
  (forall s r,
      In r (analyzeContract sb (JsString s)) ->
      (1 <= line r
       <= Z.of_nat (List.length (split_nl (preprocessSolidityCode s))))%Z)
  /\ (forall input r, In r (analyzeContract sb input) -> (1 <= line r)%Z).
Proof.
  assert (H : forall s,
             forallb
               (within (Z.of_nat
                          (List.length
                             (split_nl (preprocessSolidityCode s)))))
               (analyzeContract sb (JsString s)) = true).
  { intros s.
    pose proof (split_nl_length (preprocessSolidityCode s)) as Hlen.
    assert (H1 : forall r, line r = 1%Z ->
                   forallb
                     (within (Z.of_nat
                                (List.length
                                   (split_nl (preprocessSolidityCode s)))))
                     [r] = true).
    { intros r Hr. unfold forallb, within. rewrite andb_true_r, Hr.
      apply andb_true_iff. split; apply Z.leb_le; lia. }
    destruct s as [|c t]; [apply H1; reflexivity|].
    unfold analyzeContract.
    destruct (persistenceReturns sb); [|apply H1; reflexivity].
    destruct (finalize_cases
                (analyzeContractSimple (preprocessSolidityCode (c :: t))))
      as [-> | ->]; [apply H1; reflexivity|].
    apply analyzeContractSimple_within. }
  assert (H' : forall s r,
             In r (analyzeContract sb (JsString s)) ->
             (1 <= line r
              <= Z.of_nat
                   (List.length (split_nl (preprocessSolidityCode s))))%Z).
  { intros s r Hr. specialize (H s). rewrite forallb_forall in H.
    specialize (H r Hr). unfold within in H.
    apply andb_true_iff in H as [Ha Hb].
    apply Z.leb_le in Ha, Hb. lia. }
  split; [exact H'|].
  intros [s|] r Hr.
  - apply (H' s r Hr).
  - destruct Hr as [<-|[]]. simpl. lia.
Qed.

(** ** What the merge keeps and what it leaves out *)

Lemma Similar_refl (r : SmartCheckResult) : Similar r r.
Proof. split; [reflexivity|]. rewrite Z.sub_diag. simpl. lia. Qed.

Lemma pushUnlessSimilar_grows rs res : Grows rs (pushUnlessSimilar rs res).
Proof.
  unfold pushUnlessSimilar, push.
  destruct (negb _); [eexists; reflexivity|apply Grows_refl].
Qed.

Lemma pushUnlessSimilar_covers rs res :
  exists g, In g (pushUnlessSimilar rs res) /\ Similar g res.
Proof.
  unfold pushUnlessSimilar, push.
  destruct (existsb (similar res) rs) eqn:E; simpl.
  - apply existsb_similar in E as (g & Hg & Hs). exists g; auto.
  - exists res. split; [apply in_or_app; right; left; reflexivity|].
    apply Similar_refl.
Qed.

Lemma applyRule_grows ln i rs r : Grows rs (applyRule ln i rs r).
Proof.
  unfold applyRule. destruct (check r ln (i + 1));
    [apply pushUnlessSimilar_grows|apply Grows_refl].
Qed.

Lemma fold_applyRule_covers (ln : jsstring) (i : Z) (l : list Rule) :
  forall st,
    Grows st (fold_left (applyRule ln i) l st)
    /\ forall r res,
         In r l -> check r ln (i + 1) = Some res ->
         exists g, In g (fold_left (applyRule ln i) l st) /\ Similar g res.
Proof.
  induction l as [|r0 l IH]; intros st; simpl.
  - split; [apply Grows_refl|intros r res []].
  - destruct (IH (applyRule ln i st r0)) as [Hg Hc]. split.
    + eapply Grows_trans; [apply applyRule_grows|exact Hg].
    + intros r res [<-|Hin] E; [|exact (Hc r res Hin E)].
      assert (H : exists g, In g (applyRule ln i st r0) /\ Similar g res).
      { unfold applyRule. rewrite E. apply pushUnlessSimilar_covers. }
      destruct H as (g & Hin & Hs). exists g. split; [|exact Hs].
      exact (Grows_In _ _ _ Hg Hin).
Qed.

Lemma applyRules_covers (lines : list jsstring) :
  forall (i0 : Z) (st : list SmartCheckResult),
    let final :=
      forEachFrom
        (fun results ln index => fold_left (applyRule ln index) rules results)
        lines i0 st in
    Grows st final
    /\ forall (k : nat) ln r res,
         nth_error lines k = Some ln -> In r rules ->
         check r ln (i0 + Z.of_nat k + 1) = Some res ->
         exists g, In g final /\ Similar g res.
Proof.
  induction lines as [|l t IH]; intros i0 st; simpl.
  - split; [apply Grows_refl|]. intros [|k] ln r res H; discriminate H.
  - destruct (fold_applyRule_covers l i0 rules st) as [Hg0 Hc0].
    destruct (IH (i0 + 1)%Z (fold_left (applyRule l i0) rules st))
      as [Hg Hc].
    split; [eapply Grows_trans; eassumption|].
    intros [|k] ln r res Hnth Hin E; simpl in Hnth.
    + injection Hnth as <-.
      replace (i0 + Z.of_nat 0 + 1)%Z with (i0 + 1)%Z in E by lia.
      destruct (Hc0 r res Hin E) as (g & Hg' & Hs). exists g.
      split; [exact (Grows_In _ _ _ Hg Hg')|exact Hs].
    + apply (Hc k ln r res Hnth Hin).
      replace (i0 + 1 + Z.of_nat k + 1)%Z
        with (i0 + Z.of_nat (S k) + 1)%Z by lia.
      exact E.
Qed.

(** X17. Nothing a rule of the catalogue finds is lost without trace:
    when a rule matches a line of a source that has a contract line, the
    findings of the scanner hold a finding of the same rule at most two lines
    away from that line (the match itself, unless it was left out for one
    that was already there). *)
Theorem every_match_is_covered (src : jsstring) (k : nat) (ln : jsstring)
    (r : Rule) (res : SmartCheckResult) :
  hasContractLine src = true ->
  nth_error (map trim (split_nl src)) k = Some ln ->
  In r rules ->
  check r ln (Z.of_nat k + 1) = Some res ->
  exists g,
    In g (analyzeContractSimple src)
    /\ rule g = ruleId r
    /\ (Z.abs (line g - (Z.of_nat k + 1)) <= 2)%Z.
Proof.
  intros Hc Hnth Hin E. unfold analyzeContractSimple.
  destruct (Z.eqb_spec
              (findIndex (fun ln _ => startsWith (js "contract") ln)
                 (map trim (split_nl src))) (-1)) as [Hno|_].
  - exfalso. unfold hasContractLine in Hc.
    apply existsb_exists in Hc as (x & Hx & Hs).
    destruct (existsb (startsWith (js "contract")) (map trim (split_nl src)))
      eqn:Ex.
    + clear - Hno Ex. unfold findIndex in Hno.
      assert (H : forall (l : list jsstring) i,
                 (0 <= i)%Z ->
                 existsb (startsWith (js "contract")) l = true ->
                 findIndexFrom
                   (fun ln (_ : Z) => startsWith (js "contract") ln) l i
                 <> (-1)%Z).
      { induction l as [|y l IH]; intros i Hi H; simpl in *; [discriminate|].
        destruct (startsWith (js "contract") y); [lia|].
        apply IH; [lia|exact H]. }
      exact (H _ 0%Z ltac:(lia) Ex Hno).
    + assert (existsb (startsWith (js "contract"))
                (map trim (split_nl src)) = true)
        by (apply existsb_exists; exists x; auto).
      congruence.
  - destruct (applyRules_covers (map trim (split_nl src)) 0%Z
                (functionPass (map trim (split_nl src))
                   (findIndex (fun ln _ => startsWith (js "contract") ln)
                      (map trim (split_nl src)))))
      as [_ Hcov].
    destruct (Hcov k ln r res Hnth Hin E) as (g & Hg & Hrule & Hline).
    pose proof rules_agree as HR. rewrite Forall_forall in HR.
    destruct (HR r Hin ln _ res E) as (Hid & _ & _ & Hl & _).
    exists g. split; [exact Hg|]. split; [congruence|].
    rewrite Hl in Hline. exact Hline.
Qed.

(** The line of [twoLinesApart] that the reentrancy rule matches: the
    finding reported for it is the one of the function analyzer, two lines
    above. *)
Lemma every_match_is_covered_witness :
  exists g,
    In g (analyzeContractSimple twoLinesApart)
    /\ rule g = "reentrancy"%string
    /\ (Z.abs (line g - 4) <= 2)%Z.
Proof.
  destruct (check reentrancyRule updateAndTransfer 4) as [res|] eqn:E;
    [|vm_compute in E; discriminate E].
  exact (every_match_is_covered twoLinesApart 3 updateAndTransfer
           reentrancyRule res eq_refl eq_refl (or_introl eq_refl) E).
Defined.

Lemma ForallOrdPairs_snoc {A : Type} (R : A -> A -> Prop) (l : list A) (x : A) :
  ForallOrdPairs R l -> (forall a, In a l -> R a x) ->
  ForallOrdPairs R (l ++ [x]).
Proof.
  induction 1 as [|a l Ha Hl IH]; intros Hx; simpl.
  - constructor; constructor.
  - constructor.
    + apply Forall_app. split; [exact Ha|].
      constructor; [apply Hx; left; reflexivity|constructor].
    + apply IH. intros b Hb. apply Hx. right; exact Hb.
Qed.

Lemma similar_self (r : SmartCheckResult) : similar r r = true.
Proof. apply similar_spec, Similar_refl. Qed.

Lemma pushUnlessSimilar_Separated pre rs res :
  Separated pre rs -> Separated pre (pushUnlessSimilar rs res).
Proof.
  intros (added & -> & Hpairs & Hpre). unfold pushUnlessSimilar, push.
  destruct (existsb (similar res) (pre ++ added)) eqn:E; simpl.
  - exists added; auto.
  - assert (Hnone : forall a, In a (pre ++ added) -> similar a res = false).
    { intros a Ha. rewrite similar_sym.
      destruct (similar res a) eqn:Es; [|reflexivity].
      assert (existsb (similar res) (pre ++ added) = true)
        by (apply existsb_exists; exists a; auto).
      congruence. }
    exists (added ++ [res]). rewrite app_assoc. split; [reflexivity|]. split.
    + apply ForallOrdPairs_snoc; [exact Hpairs|].
      intros a Ha. apply Hnone. apply in_or_app; right; exact Ha.
    + intros f g Hf Hg. apply in_app_or in Hf as [Hf|[<-|[]]]; [auto|].
      apply Hnone. apply in_or_app; left; exact Hg.
Qed.

Lemma applyRules_Separated lines pre : Separated pre (applyRules lines pre).
Proof.
  unfold applyRules, forEach.
  apply (forEachFrom_invariant (Separated pre)).
  - intros st ln i Hst.
    apply (fold_left_invariant (Separated pre)); [|exact Hst].
    intros st' r Hst'. unfold applyRule.
    destruct (check r ln (i + 1)); [apply pushUnlessSimilar_Separated|];
      exact Hst'.
  - exists []. rewrite app_nil_r. split; [reflexivity|].
    split; [constructor|intros f g []].
Qed.

Lemma separated_NoDup (l : list SmartCheckResult) :
  ForallOrdPairs (fun a b => similar a b = false) l -> NoDup l.
Proof.
  induction 1 as [|a l Ha _ IH]; constructor; [|exact IH].
  intros Hin. rewrite Forall_forall in Ha. specialize (Ha a Hin).
  rewrite similar_self in Ha. discriminate.
Qed.

(** X18. The catalogue pass reports a rule at most once in any three
    consecutive lines: what it appends to the findings of the function pass
    holds no finding twice and no two findings of the same rule at most two
    lines apart, so of the matches of one rule on neighbouring lines only
    the first is reported. *)
Theorem one_report_per_neighbourhood (lines : list jsstring)
    (pre : list SmartCheckResult) :
  exists added,
    applyRules lines pre = pre ++ added
    /\ NoDup added
    /\ forall f g,
         In f added -> In g added -> f <> g ->
         ~ (rule f = rule g /\ (Z.abs (line f - line g) <= 2)%Z).
Proof.
  destruct (applyRules_Separated lines pre) as (added & E & Hpairs & _).
  exists added. split; [exact E|]. split; [apply separated_NoDup; exact Hpairs|].
  intros f g Hf Hg Hne Hs.
  destruct (ForallOrdPairs_In Hpairs f g Hf Hg) as [H|[H|H]].
  - contradiction.
  - assert (similar f g = true) by (apply similar_spec; split;
      [symmetry; apply Hs|];
      rewrite <- Z.abs_opp; replace (- (line g - line f))%Z
        with (line f - line g)%Z by lia; apply Hs).
    congruence.
  - assert (similar g f = true) by (apply similar_spec; exact Hs).
    congruence.
Qed.

(** ** A signature line that matches the state-change expression *)

Lemma findIndexFrom_present {A : Type} (p : A -> bool) (l : list A) :
  forall i : Z,
    existsb p l = true ->
    (i <= findIndexFrom (fun x _ => p x) l i)%Z.
Proof.
  induction l as [|x t IH]; intros i H; simpl in *; [discriminate|].
  destruct (p x); [lia|]. specialize (IH (i + 1)%Z H). lia.
Qed.

(** X19. The ordering test of the analyzer counts the signature line as
    line 0 of the function although the flags do not: a function whose
    signature line holds a plus, minus or equals sign (a mapping parameter,
    for one) has its first state change on line 0 and is never reported for
    reentrancy, whatever its body does. *)
Theorem signature_hides_reentrancy (signature : jsstring)
    (body : list jsstring) (startLine : Z) :
  Forall singleLine (signature :: body) ->
  StateChange signature ->
  withRule "reentrancy"
    (analyzeFunction (fold_left appendLine body (openFunction signature))
       startLine []) = [].
Proof.
  intros Hlines Hsig.
  rewrite (analyzeFunction_emits _ startLine []). simpl app.
  rewrite emitted_reentrancy.
  set (f := fold_left appendLine body (openFunction signature)).
  destruct (appendLines_fields body (openFunction signature))
    as (_ & _ & _ & _ & He & _).
  fold f in He. simpl in He.
  assert (Hs : stateChangeIndex f = 0%Z).
  { unfold stateChangeIndex, f. rewrite (record_lines _ _ Hlines).
    unfold findIndex. simpl.
    apply stateChangePattern_spec in Hsig. rewrite Hsig. reflexivity. }
  destruct (hasExternalCall f) eqn:Hext; [|reflexivity].
  assert (Hc : (0 <= externalCallIndex f)%Z).
  { unfold externalCallIndex, f. rewrite (record_lines _ _ Hlines).
    unfold findIndex. simpl.
    destruct (externalCallPattern signature); [lia|].
    pose proof (findIndexFrom_present externalCallPattern body 1%Z
                  (eq_sym He)) as H.
    simpl in H. lia. }
  rewrite Hs. destruct (hasStateChange f); simpl; [|reflexivity].
  destruct (Z.gtb_spec 0 (externalCallIndex f)); [lia|reflexivity].
Qed.

(** A withdraw function that takes the balances as a mapping parameter:
    the call comes before the update, and no reentrancy is reported. *)
Lemma signature_hides_reentrancy_witness :
  withRule "reentrancy"
    (analyzeFunction
       (fold_left appendLine [callLine; balanceLine; js "}"]
          (openFunction
             (js "function pay(mapping(address => uint) storage balances) internal {")))
       1 []) = [].
Proof.
  apply signature_hides_reentrancy.
  - repeat constructor; vm_compute; discriminate.
  - exists (ch "="). split; [|auto].
    apply in_or_app with (l := js "function pay(mapping(address ").
    right. left. reflexivity.
Defined.
